(** * go-fetch: the sniff / decompress / extract pipeline of [main.go]

    A shallow embedding of [main.go] in its newest revision (the first file
    of [src/unnamed/part_000]: functions [targetFile], [write],
    [uncompress], [unarchive], [unarchivePerm], [unarchiveNext]), of the
    functions of the revision in [src/main.go] that differ from it, and of
    the part of the Go standard library and of the operating system those
    functions call.  Byte slices are [list byte], Go strings are [string],
    [os.FileMode] is a [Z] with its bit operations written out, errors are
    values, and the file tree, standard output and the variable
    [targetName] are explicit state. *)

From Stdlib Require Import List Strings.String Strings.Ascii Strings.Byte ZArith NArith Lia Bool Arith.
Import ListNotations.
Local Open Scope list_scope.
Local Open Scope nat_scope.

(** ** Byte slices *)

Module Bytes.

(** [bytes.HasPrefix(s, prefix)]:
    [len(s) >= len(prefix) && Equal(s[:len(prefix)], prefix)]. *)
Fixpoint HasPrefix (s prefix : list byte) {struct prefix} : bool :=
  match prefix with
  | [] => true
  | p :: prefix' =>
      match s with
      | [] => false
      | c :: s' => Byte.eqb c p && HasPrefix s' prefix'
      end
  end.

(** The slice expression [s[n:]]; a Go slice expression panics when the low
    bound exceeds the length, which is [None] here. *)
Definition slice_from (n : nat) (s : list byte) : option (list byte) :=
  if Nat.leb n (List.length s) then Some (skipn n s) else None.

(** Equality of byte slices, [bytes.Equal]. *)
Fixpoint Equal (a b : list byte) : bool :=
  match a, b with
  | [], [] => true
  | x :: a', y :: b' => Byte.eqb x y && Equal a' b'
  | _, _ => false
  end.

Definition of_string (s : string) : list byte := list_byte_of_string s.

End Bytes.

(** ** Go strings: the functions of package [strings] the program calls *)

Module GoStrings.

(** [strings.HasPrefix(s, prefix)]. *)
Fixpoint HasPrefix (s prefix : string) {struct prefix} : bool :=
  match prefix with
  | EmptyString => true
  | String p prefix' =>
      match s with
      | EmptyString => false
      | String c s' => Ascii.eqb c p && HasPrefix s' prefix'
      end
  end.

(** [strings.HasSuffix(s, suffix)]:
    [len(s) >= len(suffix) && s[len(s)-len(suffix):] == suffix]. *)
Definition HasSuffix (s suffix : string) : bool :=
  Nat.leb (String.length suffix) (String.length s) &&
  String.eqb
    (substring (String.length s - String.length suffix) (String.length suffix) s)
    suffix.

(** [strings.TrimSuffix(s, suffix)]: [s[:len(s)-len(suffix)]] when [s] ends
    with [suffix], [s] unchanged otherwise. *)
Definition TrimSuffix (s suffix : string) : string :=
  if HasSuffix s suffix
  then substring 0 (String.length s - String.length suffix) s
  else s.

(** [strings.ContainsRune(s, r)] for a one-byte rune. *)
Fixpoint ContainsRune (s : string) (r : ascii) : bool :=
  match s with
  | EmptyString => false
  | String c s' => Ascii.eqb c r || ContainsRune s' r
  end.

(** [strings.Split(s, sep)] for a one-byte separator: the fields between
    the separators, empty fields included. *)
Fixpoint Split (s : string) (sep : ascii) : list string :=
  match s with
  | EmptyString => [EmptyString]
  | String c s' =>
      if Ascii.eqb c sep then EmptyString :: Split s' sep
      else match Split s' sep with
           | [] => [String c EmptyString]
           | f :: fs => String c f :: fs
           end
  end.

End GoStrings.

(** ** Package [path/filepath] on a Unix system *)

Module Filepath.

Definition Separator : ascii := "/"%char.

(** [filepath.FromSlash]: the identity where the separator is the slash. *)
Definition FromSlash (path : string) : string := path.

Definition IsAbs (path : string) : bool := GoStrings.HasPrefix path "/".

(** A name: a path element that is not empty, not [.] or [..], and holds
    no separator. *)
Definition is_name (e : string) : bool :=
  negb (String.eqb e "" || String.eqb e "." || String.eqb e "..") &&
  negb (GoStrings.ContainsRune e Separator).

(** One element of the scan of [Clean] over the path elements; [out] is the
    stack of the elements kept so far, last one first.  An empty element
    and [.] are dropped; [..] removes the element before it when there is
    one that is not itself [..], is dropped at the root, and is kept
    otherwise. *)
Definition clean_step (rooted : bool) (out : list string) (e : string)
  : list string :=
  if String.eqb e "" || String.eqb e "." then out
  else if String.eqb e ".." then
    match out with
    | top :: out' =>
        if String.eqb top ".." then e :: out else out'
    | [] => if rooted then [] else [e]
    end
  else e :: out.

Definition clean_elems (rooted : bool) (elems : list string) : list string :=
  rev (fold_left (clean_step rooted) elems []).

(** [filepath.Clean]: the shortest path name equivalent to [path] by purely
    lexical processing. *)
Definition Clean (path : string) : string :=
  if String.eqb path "" then "."%string
  else
    let rooted := IsAbs path in
    let body := String.concat "/" (clean_elems rooted (GoStrings.Split path Separator)) in
    if rooted then ("/" ++ body)%string
    else if String.eqb body "" then "."%string else body.

(** [filepath.Join]: the elements from the first non-empty one on, joined
    by the separator and cleaned; the empty string when all are empty. *)
Fixpoint Join (elem : list string) : string :=
  match elem with
  | [] => ""%string
  | e :: rest =>
      if String.eqb e "" then Join rest
      else Clean (String.concat "/" elem)
  end.

(** [filepath.Abs] in the working directory [wd]. *)
Definition Abs (wd path : string) : string :=
  if IsAbs path then Clean path else Join [wd; path].

(** [filepath.Dir]: all but the last element of [path], cleaned. *)
Definition Dir (path : string) : string :=
  match removelast (GoStrings.Split path Separator) with
  | [] => Clean ""
  | init => Clean (String.concat "/" init ++ "/")
  end.

End Filepath.

(** ** [os.FileMode]: a 32-bit word, type bits above the permission bits *)

(** Go writes permission bits in octal, [0777]; [octal] reads the digits. *)
Definition octal (digits : list nat) : Z :=
  fold_left (fun acc d => 8 * acc + Z.of_nat d)%Z digits 0%Z.

Module FileMode.
Local Open Scope Z_scope.

Definition ModeDir        : Z := Z.shiftl 1 31.
Definition ModeSymlink    : Z := Z.shiftl 1 27.
Definition ModeDevice     : Z := Z.shiftl 1 26.
Definition ModeNamedPipe  : Z := Z.shiftl 1 25.
Definition ModeSocket     : Z := Z.shiftl 1 24.
Definition ModeSetuid     : Z := Z.shiftl 1 23.
Definition ModeSetgid     : Z := Z.shiftl 1 22.
Definition ModeCharDevice : Z := Z.shiftl 1 21.
Definition ModeSticky     : Z := Z.shiftl 1 20.
Definition ModeIrregular  : Z := Z.shiftl 1 19.

Definition ModeType : Z :=
  Z.lor ModeDir (Z.lor ModeSymlink (Z.lor ModeNamedPipe (Z.lor ModeSocket
    (Z.lor ModeDevice (Z.lor ModeCharDevice ModeIrregular))))).

Definition ModePerm : Z := Eval cbv in octal [7; 7; 7]%nat.

Definition IsDir (m : Z) : bool := negb (Z.land m ModeDir =? 0).
Definition IsRegular (m : Z) : bool := Z.land m ModeType =? 0.
Definition Perm (m : Z) : Z := Z.land m ModePerm.

End FileMode.

(** ** The operating system: a file tree with symbolic links

    The calls of package [os] the program makes, on a file tree with
    directories, regular files and symbolic links.  A node is addressed by
    its physical path, the list of names below the root; path strings are
    resolved as the kernel does, following symbolic links in every
    component but (for [lstat], [mkdir] and [symlink]) the last. *)

Module OS.

Inductive errno := ENOENT | ENOTDIR | EEXIST | EISDIR | ELOOP.

Definition ppath := list string.

Inductive node :=
| NDir (perm : Z)
| NFile (perm : Z) (content : list byte) (mtime : option Z)
| NLink (target : string).

(** The tree: the newest binding of a physical path comes first. *)
Definition fsys := list (ppath * node).

Fixpoint ppath_eqb (p q : ppath) : bool :=
  match p, q with
  | [], [] => true
  | a :: p', b :: q' => String.eqb a b && ppath_eqb p' q'
  | _, _ => false
  end.

Fixpoint find (fs : fsys) (p : ppath) : option node :=
  match fs with
  | [] => None
  | (q, n) :: fs' => if ppath_eqb q p then Some n else find fs' p
  end.

(** The root directory always exists. *)
Definition lookup (fs : fsys) (p : ppath) : option node :=
  match find fs p with
  | Some n => Some n
  | None => match p with [] => Some (NDir (octal [7; 5; 5])) | _ => None end
  end.

(** The names of a path string: empty and [.] elements carry no step. *)
Definition path_elems (path : string) : list string :=
  filter (fun e => negb (String.eqb e "" || String.eqb e "."))
         (GoStrings.Split path Filepath.Separator).

Definition is_nil {A} (l : list A) : bool :=
  match l with [] => true | _ => false end.

Definition is_link (n : node) : bool :=
  match n with NLink _ => true | _ => false end.

(** Path resolution from the directory [cur].  [fuel] bounds the number of
    steps (the kernel's limits on path length and on link traversals). *)
Fixpoint namei (fuel : nat) (fs : fsys) (cur : ppath) (elems : list string)
  (follow : bool) : errno + ppath :=
  match elems with
  | [] => inr cur
  | e :: rest =>
      match fuel with
      | 0 => inl ELOOP
      | S fuel' =>
          if String.eqb e ".." then namei fuel' fs (removelast cur) rest follow
          else
            let p := cur ++ [e] in
            match lookup fs p with
            | Some (NLink t) =>
                if is_nil rest && negb follow then inr p
                else namei fuel' fs (if Filepath.IsAbs t then [] else cur)
                           (path_elems t ++ rest) follow
            | Some (NDir _) => namei fuel' fs p rest follow
            | Some (NFile _ _ _) => if is_nil rest then inr p else inl ENOTDIR
            | None => if is_nil rest then inr p else inl ENOENT
            end
      end
  end.

Definition namei_fuel : nat := 4096.

Definition S_ISUID : Z := octal [4; 0; 0; 0].
Definition S_ISGID : Z := octal [2; 0; 0; 0].
Definition S_ISVTX : Z := octal [1; 0; 0; 0].

Section Process.

(** The working directory and the file mode creation mask of the process. *)
Variable wd : string.
Variable umask : Z.

Definition resolve (fs : fsys) (path : string) (follow : bool) : errno + ppath :=
  if String.eqb path "" then inl ENOENT
  else namei namei_fuel fs
             (if Filepath.IsAbs path then [] else path_elems wd)
             (path_elems path) follow.

(** [syscallMode]: the permission bits and the setuid, setgid and sticky
    bits of a [FileMode], as the kernel takes them. *)
Definition syscallMode (m : Z) : Z :=
  Z.lor (FileMode.Perm m)
    (Z.lor (if Z.land m FileMode.ModeSetuid =? 0 then 0 else S_ISUID)
       (Z.lor (if Z.land m FileMode.ModeSetgid =? 0 then 0 else S_ISGID)
              (if Z.land m FileMode.ModeSticky =? 0 then 0 else S_ISVTX)))%Z.

Definition created_mode (m : Z) : Z := Z.ldiff (syscallMode m) umask.

Definition Stat (fs : fsys) (path : string) : errno + node :=
  match resolve fs path true with
  | inl e => inl e
  | inr p => match lookup fs p with Some n => inr n | None => inl ENOENT end
  end.

Definition Lstat (fs : fsys) (path : string) : errno + node :=
  match resolve fs path false with
  | inl e => inl e
  | inr p => match lookup fs p with Some n => inr n | None => inl ENOENT end
  end.

Definition Mkdir (fs : fsys) (path : string) (perm : Z) : errno + fsys :=
  match resolve fs path false with
  | inl e => inl e
  | inr p =>
      match lookup fs p with
      | Some _ => inl EEXIST
      | None => inr ((p, NDir (created_mode perm)) :: fs)
      end
  end.

Fixpoint strip_trailing_empty (elems : list string) : list string :=
  match elems with
  | [] => []
  | e :: rest =>
      match strip_trailing_empty rest with
      | [] => if String.eqb e "" then [] else [e]
      | rest' => e :: rest'
      end
  end.

(** The parent argument of [MkdirAll]'s recursive call: trailing separators
    skipped, the last element and the separator before it removed. *)
Definition mkdirall_parent (path : string) : string :=
  String.concat "/"
    (removelast (strip_trailing_empty (GoStrings.Split path Filepath.Separator))).

(** [os.MkdirAll]: success at once when [path] is a directory, an error
    when it is something else, and otherwise the parent first and then
    [Mkdir]; every directory made gets [perm]. *)
Fixpoint MkdirAll_rec (fuel : nat) (fs : fsys) (path : string) (perm : Z)
  : errno + fsys :=
  match Stat fs path with
  | inr (NDir _) => inr fs
  | inr _ => inl ENOTDIR
  | inl _ =>
      match fuel with
      | 0 => inl ENOENT
      | S fuel' =>
          let parent := mkdirall_parent path in
          let made :=
            if String.eqb parent "" then inr fs
            else MkdirAll_rec fuel' fs parent perm in
          match made with
          | inl e => inl e
          | inr fs1 =>
              match Mkdir fs1 path perm with
              | inr fs2 => inr fs2
              | inl e =>
                  match Lstat fs1 path with
                  | inr (NDir _) => inr fs1
                  | _ => inl e
                  end
              end
          end
      end
  end.

Definition MkdirAll (fs : fsys) (path : string) (perm : Z) : errno + fsys :=
  MkdirAll_rec (S (String.length path)) fs path perm.

(** [os.OpenFile(path, O_WRONLY|O_CREATE|O_TRUNC, perm)]: the file is made
    when missing and emptied when present; the handle is its physical path. *)
Definition OpenFile (fs : fsys) (path : string) (perm : Z)
  : errno + (fsys * ppath) :=
  match resolve fs path true with
  | inl e => inl e
  | inr p =>
      match lookup fs p with
      | None => inr ((p, NFile (created_mode perm) [] None) :: fs, p)
      | Some (NFile m _ t) => inr ((p, NFile m [] t) :: fs, p)
      | Some (NDir _) => inl EISDIR
      | Some (NLink _) => inl ELOOP
      end
  end.

(** Writing to an open file appends to its content. *)
Definition Write (fs : fsys) (h : ppath) (data : list byte) : fsys :=
  match lookup fs h with
  | Some (NFile m c t) => (h, NFile m (c ++ data) t) :: fs
  | _ => fs
  end.

(** [os.Symlink(oldname, newname)]: the link holds [oldname] as it is. *)
Definition Symlink (fs : fsys) (oldname newname : string) : errno + fsys :=
  if String.eqb oldname "" then inl ENOENT
  else
    match resolve fs newname false with
    | inl e => inl e
    | inr p =>
        match lookup fs p with
        | Some _ => inl EEXIST
        | None => inr ((p, NLink oldname) :: fs)
        end
    end.

(** [os.Chtimes(path, t, t)]. *)
Definition Chtimes (fs : fsys) (path : string) (t : Z) : errno + fsys :=
  match resolve fs path true with
  | inl e => inl e
  | inr p =>
      match lookup fs p with
      | Some (NFile m c _) => inr ((p, NFile m c (Some t)) :: fs)
      | Some _ => inr fs
      | None => inl ENOENT
      end
  end.

End Process.

End OS.

(** ** Values shared by the revisions of [main.go] *)

Inductive error :=
| EOF                                   (* io.EOF *)
| ErrUnexpectedEOF                      (* io.ErrUnexpectedEOF *)
| ErrFormat (layer msg : string)        (* an error of the gzip, bzip2, tar or zip reader *)
| PathError (op path : string) (e : OS.errno)
| IllegalFilePath (name : string)       (* "illegal file path %q" *)
| ErrorWriting (name : string) (e : error)         (* "error writing to %q: %w" *)
| WroteBytes (n : Z) (name : string) (size : Z)    (* "wrote %d bytes to %q; expected %d" *)
| UnsupportedFile (name : string) (mode : Z).      (* "archive contained unsupported file %q of type %v" *)

(** The constant text an error message starts with. *)
Definition Error_text (e : error) : string :=
  match e with
  | EOF => "EOF"
  | ErrUnexpectedEOF => "unexpected EOF"
  | ErrFormat layer _ => layer
  | PathError op _ _ => op
  | IllegalFilePath _ => "illegal file path"
  | ErrorWriting _ _ => "error writing to"
  | WroteBytes _ _ _ => "wrote"
  | UnsupportedFile _ _ => "archive contained unsupported file"
  end.

(** The archive entry or file name an error message quotes. *)
Definition Error_name (e : error) : option string :=
  match e with
  | IllegalFilePath name | ErrorWriting name _ | WroteBytes _ name _
  | UnsupportedFile name _ => Some name
  | _ => None
  end.

(** How a run of a function ends: it returns a value; it ends the whole
    invocation with an error (an [error] returned up to [main], which calls
    [log.Fatal], or [log.Fatalf] on the spot); it panics; or the model ran
    out of fuel before the function returned. *)
Inductive result (A : Type) :=
| Ok (a : A)
| Fatal (e : error)
| Panic (msg : string)
| OutOfFuel.
Arguments Ok {A} a.
Arguments Fatal {A} e.
Arguments Panic {A} msg.
Arguments OutOfFuel {A}.

(** A forward-only stream of bytes: the bytes it yields and how it ends,
    [None] for a clean end of file and [Some e] for a read error. *)
Record stream := { data : list byte; ending : option error }.

(** [os.FileInfo] as the archive readers fill it in; [ModTime] is [None]
    for the zero time. *)
Record FileInfo := { Mode : Z; Size : Z; ModTime : option Z }.

Record entry := { Name : string; Info : FileInfo; Body : stream }.

(** What an archive reader yields: its entries, then [io.EOF] or an error. *)
Record archive := { entries : list entry; final : error }.

(** The dynamic type of the [io.Reader] given to [unarchive]. *)
Inductive reader :=
| TarReader (a : archive)
| ZipReader (a : archive)
| OtherReader (s : stream).

(** The package-level variables [main] sets once before the pipeline
    starts, with the working directory and the umask of the process. *)
Record config := {
  stdout : bool;
  targetIsDir : bool;
  target : string;
  wd : string;
  umask : Z
}.

(** The calls of package [os] that take a path, as the program makes them. *)
Inductive call :=
| CMkdirAll (path : string) (perm : Z)
| COpenFile (path : string) (perm : Z)
| CSymlink (oldname newname : string)
| CChtimes (path : string) (t : Z).

(** The path a call creates or changes something at. *)
Definition call_path (c : call) : string :=
  match c with
  | CMkdirAll path _ | COpenFile path _ | CChtimes path _ => path
  | CSymlink _ newname => newname
  end.

(** What changes while the pipeline runs: the variable [targetName], the
    file tree, the bytes written to standard output, and the log of the
    [os] calls made so far, oldest first. *)
Record state := {
  targetName : string;
  fs : OS.fsys;
  stdout_data : list byte;
  calls : list call
}.

Definition set_targetName (n : string) (s : state) : state :=
  {| targetName := n; fs := fs s; stdout_data := stdout_data s; calls := calls s |}.
Definition set_fs (f : OS.fsys) (s : state) : state :=
  {| targetName := targetName s; fs := f; stdout_data := stdout_data s; calls := calls s |}.
Definition add_stdout (b : list byte) (s : state) : state :=
  {| targetName := targetName s; fs := fs s;
     stdout_data := stdout_data s ++ b; calls := calls s |}.
Definition add_call (c : call) (s : state) : state :=
  {| targetName := targetName s; fs := fs s; stdout_data := stdout_data s;
     calls := calls s ++ [c] |}.

(** *** The monad of the program: state, and the ways a run can end *)

Definition M (A : Type) : Type := state -> result A * state.

Definition ret {A} (a : A) : M A := fun s => (Ok a, s).
Definition fail {A} (e : error) : M A := fun s => (Fatal e, s).
Definition panic {A} (msg : string) : M A := fun s => (Panic msg, s).
Definition diverge {A} : M A := fun s => (OutOfFuel, s).

Definition bind {A B} (m : M A) (k : A -> M B) : M B :=
  fun s =>
    match m s with
    | (Ok a, s') => k a s'
    | (Fatal e, s') => (Fatal e, s')
    | (Panic msg, s') => (Panic msg, s')
    | (OutOfFuel, s') => (OutOfFuel, s')
    end.

Declare Scope go_scope.
Delimit Scope go_scope with go.
Notation "x <- m ;; k" := (bind m (fun x => k))
  (at level 100, m at next level, right associativity) : go_scope.
Notation "m ;;; k" := (bind m (fun _ => k))
  (at level 100, right associativity) : go_scope.

Definition get {A} (f : state -> A) : M A := fun s => (Ok (f s), s).
Definition modify (f : state -> state) : M unit := fun s => (Ok tt, f s).

(** An [os] call on the file tree: logged, and its [error] result handed
    back to the caller as a value, the way Go returns it. *)
Definition os_call (c : call) (op : OS.fsys -> OS.errno + OS.fsys) : M (option error) :=
  fun s =>
    let s := add_call c s in
    match op (fs s) with
    | inl e => (Ok (Some (PathError "os" (call_path c) e)), s)
    | inr fs' => (Ok None, set_fs fs' s)
    end.

Section Calls.
Variable cfg : config.

Definition os_MkdirAll (path : string) (perm : Z) : M (option error) :=
  os_call (CMkdirAll path perm)
          (fun fs => OS.MkdirAll (wd cfg) (umask cfg) fs path perm).

Definition os_Symlink (oldname newname : string) : M (option error) :=
  os_call (CSymlink oldname newname)
          (fun fs => OS.Symlink (wd cfg) fs oldname newname).

Definition os_Chtimes (path : string) (t : Z) : M (option error) :=
  os_call (CChtimes path t) (fun fs => OS.Chtimes (wd cfg) fs path t).

(** An [os.File]: standard output or an open file of the tree. *)
Inductive file := Stdout | File (h : OS.ppath).

Definition os_OpenFile (path : string) (perm : Z) : M (error + file) :=
  fun s =>
    let s := add_call (COpenFile path perm) s in
    match OS.OpenFile (wd cfg) (umask cfg) (fs s) path perm with
    | inl e => (Ok (inl (PathError "open" path e)), s)
    | inr (fs', h) => (Ok (inr (File h)), set_fs fs' s)
    end.

(** [io.Copy(w, r)]: every byte [r] yields is written to [w]; the count and
    the error [r] ended with (none at a clean end of file) are returned. *)
Definition io_Copy (w : file) (r : stream) : M (Z * option error) :=
  fun s =>
    let s' := match w with
              | Stdout => add_stdout (data r) s
              | File h => set_fs (OS.Write (fs s) h (data r)) s
              end in
    (Ok (Z.of_nat (List.length (data r)), ending r), s').

(** [ioutil.ReadAll(r)]. *)
Definition ioutil_ReadAll (r : stream) : list byte * option error :=
  (data r, ending r).

(** [Close] of an [os.File]. *)
Definition Close (w : file) : M (option error) := ret None.

(** [Peek(n)] of a [bufio.Reader], for [n] within the size of its buffer
    (4096 bytes): the next [n] bytes without advancing the reader; fewer,
    with the error that stopped the read, when the stream is shorter.  The
    reader is returned as it was. *)
Definition Peek (n : nat) (r : stream) : list byte * option error * stream :=
  (firstn n (data r),
   if Nat.leb n (List.length (data r)) then None
   else Some (match ending r with Some e => e | None => EOF end),
   r).

End Calls.

(** ** The newest revision of [main.go] ([src/unnamed/part_000]) *)

Module Fetch.
Local Open Scope go_scope.

Section Program.
Variable cfg : config.

(** [targetFile]: the file the plain stream is written to. *)
Definition targetFile : M file :=
  if stdout cfg then ret Stdout
  else
    path <- (if targetIsDir cfg then
               targetName <- get targetName ;;
               let name := Filepath.FromSlash targetName in
               if GoStrings.ContainsRune name Filepath.Separator
               then fail (IllegalFilePath targetName)
               else ret (Filepath.Join [target cfg; name])
             else ret (target cfg)) ;;
    let path := Filepath.Abs (wd cfg) path in
    err <- os_MkdirAll cfg (Filepath.Dir path) (octal [7; 7; 7]) ;;
    match err with
    | Some e => fail e
    | None =>
        f <- os_OpenFile cfg path (octal [6; 6; 6]) ;;
        match f with
        | inl e => fail e
        | inr f => ret f
        end
    end.

(** [write]: copy, close, and report the copy error before the close error. *)
Definition write (r : stream) (w : file) : M (option error) :=
  ne <- io_Copy w r ;;
  let err := snd ne in
  cerr <- Close w ;;
  ret (match err with None => cerr | Some _ => err end).

(** [unarchivePerm]. *)
Definition unarchivePerm (mode : Z) : Z :=
  let mode := if negb (Z.eqb (Z.land mode (octal [0; 0; 0; 7])) 0)
              then Z.lor mode (octal [0; 0; 0; 1]) else mode in
  let mode := if negb (Z.eqb (Z.land mode (octal [0; 0; 7; 0])) 0)
              then Z.lor mode (octal [0; 0; 1; 0]) else mode in
  Z.lor mode (octal [0; 3; 0; 0]).

Definition next (a : archive) : (error + string * FileInfo * stream) * archive :=
  match entries a with
  | [] => (inl (final a), a)
  | e :: es => (inr (Name e, Info e, Body e), {| entries := es; final := final a |})
  end.

(** [unarchiveNext]: the type switch over the two archive readers.  The
    reader is returned advanced to the entry, whose content is then what
    reading from it yields. *)
Definition unarchiveNext (a : reader)
  : result (error + string * FileInfo * stream) * reader :=
  match a with
  | TarReader v =>
      let '(h, v') := next v in (Ok h, TarReader v')
  | ZipReader v =>
      let '(h, v') := next v in (Ok h, ZipReader v')
  | OtherReader _ => (Panic "unarchive: unknown type", a)
  end.

(** The path of an entry: [filepath.Join(dir, filepath.FromSlash(name))]. *)
Definition entry_path (dir name : string) : string :=
  Filepath.Join [dir; Filepath.FromSlash name].

(** The body of the [for] loop of [unarchive] after [unarchiveNext] has
    returned an entry: the containment check, then the [switch] on the
    mode.  [r] is the content of the entry. *)
Definition unarchive_entry (dir name : string) (fi : FileInfo) (r : stream)
  : M unit :=
  let path := entry_path dir name in
  if negb (GoStrings.HasPrefix path dir) then fail (IllegalFilePath name)
  else
    let mode := Mode fi in
    if FileMode.IsDir mode then
      err <- os_MkdirAll cfg path (unarchivePerm mode) ;;
      match err with Some e => fail e | None => ret tt end
    else if FileMode.IsRegular mode then
      f <- os_OpenFile cfg path mode ;;
      match f with
      | inl e => fail e
      | inr f =>
          ne <- io_Copy f r ;;
          let '(n, err) := ne in
          cerr <- Close f ;;
          let err := match err with None => cerr | Some _ => err end in
          match err with
          | Some e => fail (ErrorWriting name e)
          | None =>
              let size := Size fi in
              if negb (n =? size)%Z then fail (WroteBytes n name size)
              else
                match ModTime fi with
                | Some time => _ <- os_Chtimes cfg path time ;; ret tt
                | None => ret tt
                end
          end
      end
    else if negb (Z.land mode FileMode.ModeSymlink =? 0)%Z then
      let '(old, err) := ioutil_ReadAll r in
      match err with
      | Some e => fail e
      | None =>
          err <- os_Symlink cfg (string_of_list_byte old) path ;;
          match err with Some e => fail e | None => ret tt end
      end
    else fail (UnsupportedFile name mode).

(** The [for] loop of [unarchive]; one unit of fuel per iteration. *)
Fixpoint unarchive_loop (fuel : nat) (r : reader) (dir : string) : M unit :=
  match fuel with
  | 0 => diverge
  | S fuel' =>
      match unarchiveNext r with
      | (Ok (inl err), _) =>
          match err with
          | EOF => ret tt
          | _ => fail err
          end
      | (Ok (inr (name, fi, body)), r') =>
          unarchive_entry dir name fi body ;;;
          unarchive_loop fuel' r' dir
      | (Fatal e, _) => fail e
      | (Panic msg, _) => panic msg
      | (OutOfFuel, _) => diverge
      end
  end.

(** The entries a reader still holds. *)
Definition remaining (r : reader) : nat :=
  match r with
  | TarReader a | ZipReader a => List.length (entries a)
  | OtherReader _ => 0
  end.

(** [unarchive]. *)
Definition unarchive (r : reader) (dir : string) : M unit :=
  let dir := Filepath.Abs (wd cfg) dir in
  let dir := (dir ++ "/")%string in
  err <- os_MkdirAll cfg dir (octal [7; 7; 7]) ;;
  match err with
  | Some e => fail e
  | None => unarchive_loop (S (remaining r)) r dir
  end.

(** *** The sniffer and the recursive decompressor *)

Inductive kind := Gzip | Bzip2 | Zip | Tar | Opaque.

Definition gzipMagic : list byte := [x1f; x8b].

(** The case the [switch] of [uncompress] selects for the peeked bytes;
    [None] when evaluating a case expression panics. *)
Definition uncompress_case (magic : list byte) : option kind :=
  if Bytes.HasPrefix magic gzipMagic then Some Gzip
  else if Bytes.HasPrefix magic (Bytes.of_string "BZh") then Some Bzip2
  else if negb (stdout cfg) && Bytes.HasPrefix magic (Bytes.of_string "PK")
  then Some Zip
  else if negb (stdout cfg) && Nat.ltb 257 (List.length magic) then
    match Bytes.slice_from 257 magic with
    | None => None
    | Some rest =>
        if Bytes.HasPrefix rest (Bytes.of_string "ustar") then Some Tar
        else Some Opaque
    end
  else Some Opaque.

Section Codecs.

(** The readers of the libraries, by what they make of a stream:
    [gzip.NewReader] reads the header and fails or gives the name stored in
    it and the decompressed stream; [bzip2.NewReader] gives the
    decompressed stream; the archive readers give the entries. *)
Variable gzip_NewReader : stream -> error + string * stream.
Variable bzip2_NewReader : stream -> stream.
Variable zipstream_NewReader : stream -> archive.
Variable tar_NewReader : stream -> archive.

(** [uncompress]; one unit of fuel per call. *)
Fixpoint uncompress (fuel : nat) (r : stream) : M unit :=
  match fuel with
  | 0 => diverge
  | S fuel' =>
      let '(magic, _, r) := Peek 264 r in
      match uncompress_case magic with
      | None => panic "slice bounds out of range"
      | Some Gzip =>
          match gzip_NewReader r with
          | inl err => fail err
          | inr (zr_Name, zr) =>
              targetName <- get targetName ;;
              modify (set_targetName
                        (if negb (String.eqb zr_Name "") then zr_Name
                         else GoStrings.TrimSuffix targetName ".gz")) ;;;
              uncompress fuel' zr
          end
      | Some Bzip2 =>
          targetName <- get targetName ;;
          modify (set_targetName (GoStrings.TrimSuffix targetName ".bz2")) ;;;
          let br := bzip2_NewReader r in
          uncompress fuel' br
      | Some Zip => unarchive (ZipReader (zipstream_NewReader r)) (target cfg)
      | Some Tar => unarchive (TarReader (tar_NewReader r)) (target cfg)
      | Some Opaque =>
          f <- targetFile ;;
          err <- write r f ;;
          match err with Some e => fail e | None => ret tt end
      end
  end.


End Codecs.
End Program.
End Fetch.


(** ** The revision in [src/main.go]

    It differs from the newest one in [targetFile], which checks the joined
    path against the target prefix, and in [unarchive], which has no size
    check, no [default] case and no [unarchivePerm]; errors end the process
    through [log.Fatal] where the newest revision returns them. *)

Module Earlier.
Local Open Scope go_scope.

Section Program.
Variable cfg : config.

(** [main] replaces [target] by [filepath.Abs(target)] before it starts. *)
Definition abs_target : string := Filepath.Abs (wd cfg) (target cfg).

(** [targetFile]. *)
Definition targetFile : M file :=
  if stdout cfg then ret Stdout
  else
    target <- (if targetIsDir cfg then
                 let prefix := (abs_target ++ "/")%string in
                 targetName <- get targetName ;;
                 let target := Filepath.Join [abs_target; targetName] in
                 if negb (GoStrings.HasPrefix target prefix)
                 then fail (IllegalFilePath targetName)
                 else ret target
               else ret abs_target) ;;
    err <- os_MkdirAll cfg (Filepath.Dir target) (octal [7; 5; 5]) ;;
    match err with
    | Some e => fail e
    | None =>
        f <- os_OpenFile cfg target (octal [6; 6; 6]) ;;
        match f with
        | inl e => fail e
        | inr f => ret f
        end
    end.

(** [copy]. *)
Definition copy (w : file) (r : stream) : M unit :=
  ne <- io_Copy w r ;;
  let err := snd ne in
  cerr <- Close w ;;
  match (match err with None => cerr | Some _ => err end) with
  | Some e => fail e
  | None => ret tt
  end.

(** The body of the loop of [unarchive] for one entry. *)
Definition unarchive_entry (name : string) (fi : FileInfo) (a : stream) : M unit :=
  let prefix := (abs_target ++ "/")%string in
  let path := Filepath.Join [abs_target; name] in
  if negb (GoStrings.HasPrefix path prefix) then fail (IllegalFilePath name)
  else if FileMode.IsDir (Mode fi) then
    err <- os_MkdirAll cfg path (Z.lor (Mode fi) (octal [0; 3; 0; 0])) ;;
    match err with Some e => fail e | None => ret tt end
  else if FileMode.IsRegular (Mode fi) then
    f <- os_OpenFile cfg path (Mode fi) ;;
    match f with
    | inl e => fail e
    | inr f => copy f a
    end
  else if negb (Z.land (Mode fi) FileMode.ModeSymlink =? 0)%Z then
    let '(old, err) := ioutil_ReadAll a in
    match err with
    | Some e => fail e
    | None =>
        err <- os_Symlink cfg (string_of_list_byte old) path ;;
        match err with Some e => fail e | None => ret tt end
    end
  else ret tt.

End Program.
End Earlier.

(** ** Package [compress/flate]: the DEFLATE format (RFC 1951) *)

Module Flate.

(** A reader of bits over bytes: the bits of the current byte that are
    still unread, least significant first, and the bytes after it. *)
Record bitreader := { cur : list bool; rest : list byte }.

Definition bits_of_byte (b : byte) : list bool :=
  map (N.testbit (Byte.to_N b)) [0; 1; 2; 3; 4; 5; 6; 7]%N.

Definition get_bit (br : bitreader) : option (bool * bitreader) :=
  match cur br with
  | b :: bs => Some (b, {| cur := bs; rest := rest br |})
  | [] =>
      match rest br with
      | [] => None
      | x :: xs =>
          match bits_of_byte x with
          | b :: bs => Some (b, {| cur := bs; rest := xs |})
          | [] => None
          end
      end
  end.

(** [n] bits as a number, the first bit read the least significant. *)
Fixpoint get_bits (n : nat) (br : bitreader) : option (N * bitreader) :=
  match n with
  | 0 => Some (0%N, br)
  | S n' =>
      match get_bit br with
      | None => None
      | Some (b, br1) =>
          match get_bits n' br1 with
          | None => None
          | Some (v, br2) => Some ((N.b2n b + 2 * v)%N, br2)
          end
      end
  end.

(** A canonical Huffman code: for each code length from 1 to 15 the number
    of symbols with that length, and the symbols ordered by length and
    then by value. *)
Record huffman := { count : list nat; symbol : list nat }.

Definition max_bits : nat := 15.

Definition symbols_of_length (lengths : list nat) (len : nat) : list nat :=
  map fst (filter (fun p => Nat.eqb (snd p) len)
                  (combine (seq 0 (List.length lengths)) lengths)).

Definition construct (lengths : list nat) : huffman :=
  {| count := map (fun len => List.length (symbols_of_length lengths len))
                  (seq 1 max_bits);
     symbol := flat_map (symbols_of_length lengths) (seq 1 max_bits) |}.

(** The test of the decoder on the code lengths of a dynamic block: the
    code is empty, or complete, or the single code of one bit. *)
Definition usable (lengths : list nat) : bool :=
  let h := construct lengths in
  let used := fold_left (fun code c => 2 * code + c) (count h) 0 in
  let longest := fold_left Nat.max lengths 0 in
  Nat.eqb longest 0 || Nat.eqb used (2 ^ max_bits) ||
  (Nat.eqb longest 1 && Nat.eqb used (2 ^ (max_bits - 1))).

Inductive decoded (A : Type) :=
| Sym (a : A) (br : bitreader)
| Short                      (* the input ended *)
| Corrupt.
Arguments Sym {A} a br.
Arguments Short {A}.
Arguments Corrupt {A}.

(** One symbol: bits are read one at a time until the code read so far is
    one of the codes of its length. *)
Fixpoint decode_from (counts : list nat) (symbols : list nat)
  (code first index : nat) (br : bitreader) : decoded nat :=
  match counts with
  | [] => Corrupt
  | c :: counts' =>
      match get_bit br with
      | None => Short
      | Some (b, br') =>
          let code := code + Nat.b2n b in
          if Nat.ltb code (first + c)
          then match nth_error symbols (index + (code - first)) with
               | Some s => Sym s br'
               | None => Corrupt
               end
          else decode_from counts' symbols (2 * code) (2 * (first + c))
                           (index + c) br'
      end
  end.

Definition decode (h : huffman) (br : bitreader) : decoded nat :=
  decode_from (count h) (symbol h) 0 0 0 br.

(** The tables of section 3.2.5. *)
Definition length_base : list N :=
  [3; 4; 5; 6; 7; 8; 9; 10; 11; 13; 15; 17; 19; 23; 27; 31; 35; 43; 51; 59;
   67; 83; 99; 115; 131; 163; 195; 227; 258]%N.
Definition length_extra : list nat :=
  [0; 0; 0; 0; 0; 0; 0; 0; 1; 1; 1; 1; 2; 2; 2; 2; 3; 3; 3; 3;
   4; 4; 4; 4; 5; 5; 5; 5; 0].
Definition dist_base : list N :=
  [1; 2; 3; 4; 5; 7; 9; 13; 17; 25; 33; 49; 65; 97; 129; 193; 257; 385; 513;
   769; 1025; 1537; 2049; 3073; 4097; 6145; 8193; 12289; 16385; 24577]%N.
Definition dist_extra : list nat :=
  [0; 0; 0; 0; 1; 1; 2; 2; 3; 3; 4; 4; 5; 5; 6; 6; 7; 7; 8; 8;
   9; 9; 10; 10; 11; 11; 12; 12; 13; 13].

(** The fixed codes of section 3.2.6. *)
Definition fixed_lengths : list nat :=
  repeat 8 144 ++ repeat 9 112 ++ repeat 7 24 ++ repeat 8 8.
Definition fixed_literal : huffman := Eval vm_compute in construct fixed_lengths.
Definition fixed_distance : huffman := Eval vm_compute in construct (repeat 5 30).

(** The order of the code length codes, section 3.2.7. *)
Definition code_order : list nat :=
  [16; 17; 18; 0; 8; 7; 9; 6; 10; 5; 11; 4; 12; 3; 13; 2; 14; 1; 15].

(** The output so far, newest byte first. *)
Definition window := list byte.

(** Copy [len] bytes from [dist] bytes back, one by one. *)
Fixpoint copy_back (len : nat) (dist : nat) (out : window) : option window :=
  match len with
  | 0 => Some out
  | S len' =>
      match dist with
      | 0 => None
      | S d =>
          match nth_error out d with
          | None => None
          | Some b => copy_back len' dist (b :: out)
          end
      end
  end.

Inductive status :=
| Done (br : bitreader)      (* the end of the block *)
| Truncated                  (* the input ended inside the block *)
| Invalid.                   (* corrupt input *)

(** The compressed data of a block, section 3.2.3: literals, and lengths
    with distances, up to the end-of-block symbol. *)
Fixpoint codes (fuel : nat) (lit dist : huffman) (br : bitreader)
  (out : window) : status * window :=
  match fuel with
  | 0 => (Invalid, out)
  | S fuel' =>
      match decode lit br with
      | Short => (Truncated, out)
      | Corrupt => (Invalid, out)
      | Sym s br1 =>
          if Nat.ltb s 256 then
            match Byte.of_N (N.of_nat s) with
            | Some b => codes fuel' lit dist br1 (b :: out)
            | None => (Invalid, out)
            end
          else if Nat.eqb s 256 then (Done br1, out)
          else
            match nth_error length_base (s - 257),
                  nth_error length_extra (s - 257) with
            | Some lb, Some le =>
                match get_bits le br1 with
                | None => (Truncated, out)
                | Some (lx, br2) =>
                    match decode dist br2 with
                    | Short => (Truncated, out)
                    | Corrupt => (Invalid, out)
                    | Sym d br3 =>
                        match nth_error dist_base d, nth_error dist_extra d with
                        | Some db, Some de =>
                            match get_bits de br3 with
                            | None => (Truncated, out)
                            | Some (dx, br4) =>
                                match copy_back (N.to_nat (lb + lx))
                                                (N.to_nat (db + dx)) out with
                                | None => (Invalid, out)
                                | Some out' => codes fuel' lit dist br4 out'
                                end
                            end
                        | _, _ => (Invalid, out)
                        end
                    end
                end
            | _, _ => (Invalid, out)
            end
      end
  end.

(** A stored block, section 3.2.4: the rest of the current byte is
    skipped, then come [LEN], its complement and [LEN] bytes. *)
Definition stored (br : bitreader) (out : window) : status * window :=
  match rest br with
  | l0 :: l1 :: n0 :: n1 :: data =>
      let len := (Byte.to_N l0 + 256 * Byte.to_N l1)%N in
      let nlen := (Byte.to_N n0 + 256 * Byte.to_N n1)%N in
      if negb (N.eqb (N.lxor len 65535) nlen) then (Invalid, out)
      else
        let n := N.to_nat len in
        if Nat.ltb (List.length data) n
        then (Truncated, rev data ++ out)
        else (Done {| cur := []; rest := skipn n data |},
              rev (firstn n data) ++ out)
  | _ => (Truncated, out)
  end.

(** The code lengths of a dynamic block, read with the code length code. *)
Fixpoint code_lengths (fuel : nat) (h : huffman) (want : nat) (acc : list nat)
  (br : bitreader) : decoded (list nat) :=
  if Nat.leb want (List.length acc)
  then (if Nat.eqb want (List.length acc) then Sym (rev acc) br else Corrupt)
  else
    match fuel with
    | 0 => Corrupt
    | S fuel' =>
        match decode h br with
        | Short => Short
        | Corrupt => Corrupt
        | Sym s br1 =>
            if Nat.ltb s 16 then code_lengths fuel' h want (s :: acc) br1
            else
              let '(bits, base, prev) :=
                if Nat.eqb s 16 then (2, 3, hd_error acc)
                else if Nat.eqb s 17 then (3, 3, Some 0)
                else (7, 11, Some 0) in
              match prev, get_bits bits br1 with
              | None, _ => Corrupt
              | _, None => Short
              | Some v, Some (x, br2) =>
                  code_lengths fuel' h want
                               (repeat v (base + N.to_nat x) ++ acc) br2
              end
        end
    end.

Fixpoint read_lengths (n : nat) (br : bitreader) : option (list nat * bitreader) :=
  match n with
  | 0 => Some ([], br)
  | S n' =>
      match get_bits 3 br with
      | None => None
      | Some (v, br1) =>
          match read_lengths n' br1 with
          | None => None
          | Some (vs, br2) => Some (N.to_nat v :: vs, br2)
          end
      end
  end.

(** The lengths read in the order of [code_order], as a table by symbol. *)
Definition in_code_order (vs : list nat) : list nat :=
  map (fun s => match find (fun p => Nat.eqb (fst p) s) (combine code_order vs) with
                | Some p => snd p
                | None => 0
                end)
      (seq 0 19).

(** The header of a dynamic block, section 3.2.7. *)
Definition dynamic_tables (br : bitreader) : decoded (huffman * huffman) :=
  match get_bits 5 br with
  | None => Short
  | Some (hlit, br1) =>
      match get_bits 5 br1 with
      | None => Short
      | Some (hdist, br2) =>
          match get_bits 4 br2 with
          | None => Short
          | Some (hclen, br3) =>
              let nlit := N.to_nat hlit + 257 in
              let ndist := N.to_nat hdist + 1 in
              if Nat.ltb 286 nlit || Nat.ltb 30 ndist then Corrupt
              else
                match read_lengths (N.to_nat hclen + 4) br3 with
                | None => Short
                | Some (vs, br4) =>
                    let cl := in_code_order vs in
                    if negb (usable cl) then Corrupt
                    else
                      match code_lengths (nlit + ndist) (construct cl)
                                         (nlit + ndist) [] br4 with
                      | Short => Short
                      | Corrupt => Corrupt
                      | Sym ls br5 =>
                          let ll := firstn nlit ls in
                          let dl := skipn nlit ls in
                          if usable ll && usable dl
                          then Sym (construct ll, construct dl) br5
                          else Corrupt
                      end
                end
          end
      end
  end.

(** The blocks of a stream, up to the one marked final. *)
Fixpoint blocks (fuel : nat) (br : bitreader) (out : window) : status * window :=
  match fuel with
  | 0 => (Invalid, out)
  | S fuel' =>
      match get_bits 3 br with
      | None => (Truncated, out)
      | Some (hdr, br1) =>
          let final := N.odd hdr in
          let btype := N.div hdr 2 in
          let '(st, out1) :=
            if N.eqb btype 0 then stored br1 out
            else if N.eqb btype 1
            then codes (8 * List.length (rest br1) + 8) fixed_literal
                       fixed_distance br1 out
            else if N.eqb btype 2 then
              match dynamic_tables br1 with
              | Short => (Truncated, out)
              | Corrupt => (Invalid, out)
              | Sym (lit, dist) br2 =>
                  codes (8 * List.length (rest br2) + 8) lit dist br2 out
              end
            else (Invalid, out) in
          match st with
          | Done br2 => if final then (Done br2, out1) else blocks fuel' br2 out1
          | _ => (st, out1)
          end
      end
  end.

(** [inflate]: the decompressed bytes, and how the stream ended; at its
    end the bytes after the last byte of the stream are given back. *)
Definition inflate (input : list byte) : list byte * status :=
  let '(st, out) := blocks (S (List.length input))
                           {| cur := []; rest := input |} [] in
  (rev out, st).

End Flate.

(** ** Package [compress/gzip]: the gzip format (RFC 1952) *)

Module Gzip.

(** The CRC-32 of the format, bit by bit. *)
Definition crc_step (c : N) : N :=
  if N.odd c then N.lxor (N.shiftr c 1) 0xEDB88320 else N.shiftr c 1.

Definition crc_update (c : N) (b : byte) : N :=
  Nat.iter 8 crc_step (N.lxor c (Byte.to_N b)).

Definition crc32 (bs : list byte) : N :=
  N.lxor (fold_left crc_update bs 0xFFFFFFFF%N) 0xFFFFFFFF.

(** A little-endian number. *)
Definition le (bs : list byte) : N :=
  fold_right (fun b acc => Byte.to_N b + 256 * acc)%N 0%N bs.

(** The error of a read that found too few bytes: the error of the stream
    below, and else [io.EOF] when no byte at all was read where the read
    may end, [io.ErrUnexpectedEOF] otherwise. *)
Definition short (ending : option error) (may_end : bool) : error :=
  match ending with
  | Some e => e
  | None => if may_end then EOF else ErrUnexpectedEOF
  end.

Definition ErrHeader : error := ErrFormat "gzip" "invalid header".
Definition ErrChecksum : error := ErrFormat "gzip" "invalid checksum".
Definition CorruptInput : error := ErrFormat "flate" "corrupt input".

(** A byte of a Latin-1 string as UTF-8. *)
Definition utf8 (b : byte) : list byte :=
  let v := Byte.to_N b in
  if N.ltb v 128 then [b]
  else match Byte.of_N (192 + N.shiftr v 6), Byte.of_N (128 + N.land v 63) with
       | Some hi, Some lo => [hi; lo]
       | _, _ => [b]
       end.

(** A zero-terminated string of the header, of at most 511 bytes. *)
Fixpoint read_string (room : nat) (bs : list byte)
  : option (option (list byte * list byte)) :=
  match room with
  | 0 => Some None                      (* too long: a header error *)
  | S room' =>
      match bs with
      | [] => None                      (* the input ended *)
      | b :: bs' =>
          if Byte.eqb b x00 then Some (Some ([], bs'))
          else match read_string room' bs' with
               | Some (Some (s, rest)) => Some (Some (utf8 b ++ s, rest))
               | other => other
               end
      end
  end.

Definition flag (flg : N) (bit : N) : bool := N.testbit flg bit.

(** The header of a member: the name stored in it and the bytes after the
    header. *)
Definition readHeader (ending : option error) (input : list byte)
  : error + string * list byte :=
  if Nat.ltb (List.length input) 10
  then inl (short ending (OS.is_nil input))
  else
    match input with
    | id1 :: id2 :: cm :: flg :: m0 :: m1 :: m2 :: m3 :: xfl :: os :: body =>
        if negb (Byte.eqb id1 x1f && Byte.eqb id2 x8b && Byte.eqb cm x08)
        then inl ErrHeader
        else
          let flg := Byte.to_N flg in
          let fixed := firstn 10 input in
          (* FEXTRA *)
          let extra :=
            if flag flg 2 then
              match body with
              | l0 :: l1 :: more =>
                  let n := N.to_nat (le [l0; l1]) in
                  if Nat.ltb (List.length more) n then inl (short ending false)
                  else inr ([l0; l1] ++ firstn n more, skipn n more)
              | _ => inl (short ending false)
              end
            else inr ([], body) in
          match extra with
          | inl e => inl e
          | inr (seen1, body1) =>
              (* FNAME *)
              let name :=
                if flag flg 3 then
                  match read_string 512 body1 with
                  | None => inl (short ending false)
                  | Some None => inl ErrHeader
                  | Some (Some (s, rest)) =>
                      inr (s, firstn (List.length body1 - List.length rest) body1, rest)
                  end
                else inr ([], [], body1) in
              match name with
              | inl e => inl e
              | inr (nm, seen2, body2) =>
                  (* FCOMMENT *)
                  let comment :=
                    if flag flg 4 then
                      match read_string 512 body2 with
                      | None => inl (short ending false)
                      | Some None => inl ErrHeader
                      | Some (Some (_, rest)) =>
                          inr (firstn (List.length body2 - List.length rest) body2, rest)
                      end
                    else inr ([], body2) in
                  match comment with
                  | inl e => inl e
                  | inr (seen3, body3) =>
                      (* FHCRC *)
                      if flag flg 1 then
                        match body3 with
                        | c0 :: c1 :: body4 =>
                            if N.eqb (le [c0; c1])
                                     (N.land (crc32 (fixed ++ seen1 ++ seen2 ++ seen3))
                                             0xFFFF)
                            then inr (string_of_list_byte nm, body4)
                            else inl ErrHeader
                        | _ => inl (short ending false)
                        end
                      else inr (string_of_list_byte nm, body3)
                  end
              end
          end
    | _ => inl (short ending (OS.is_nil input))
    end.

(** The data of the members from the one whose header has been read:
    inflated, checked against the checksum and the size of the trailer,
    and followed by the data of the next member when there is one. *)
Fixpoint members (fuel : nat) (ending : option error) (input : list byte)
  : list byte * option error :=
  match fuel with
  | 0 => ([], Some CorruptInput)
  | S fuel' =>
      match Flate.inflate input with
      | (out, Flate.Truncated) => (out, Some (short ending false))
      | (out, Flate.Invalid) => (out, Some CorruptInput)
      | (out, Flate.Done br) =>
          let after := Flate.rest br in
          if Nat.ltb (List.length after) 8
          then (out, Some (short ending false))
          else if negb (N.eqb (le (firstn 4 after)) (crc32 out) &&
                        N.eqb (le (firstn 4 (skipn 4 after)))
                              (N.of_nat (List.length out) mod 2 ^ 32))
          then (out, Some ErrChecksum)
          else
            let next := skipn 8 after in
            match next with
            | [] => (out, ending)
            | _ =>
                match readHeader ending next with
                | inl e => (out, Some e)
                | inr (_, body) =>
                    let '(more, e) := members fuel' ending body in
                    (out ++ more, e)
                end
            end
      end
  end.

(** [gzip.NewReader]: the header is read at once, the data as it is asked
    for. *)
Definition NewReader (r : stream) : error + string * stream :=
  match readHeader (ending r) (data r) with
  | inl e => inl e
  | inr (name, body) =>
      let '(out, e) := members (S (List.length body)) (ending r) body in
      inr (name, {| data := out; ending := e |})
  end.

End Gzip.

(** ** The specification's own words, to compare the code with *)

Module Spec.

(** "prefix starts with ...": the first bytes of the stream are the magic. *)
Definition starts_with (s magic : list byte) : bool :=
  Bytes.Equal (firstn (List.length magic) s) magic.

(** "bytes at offset [off] equal ...". *)
Definition bytes_at_equal (off : nat) (s magic : list byte) : bool :=
  Bytes.Equal (firstn (List.length magic) (skipn off s)) magic.

(** The classification of section 4.1, on the whole stream. *)
Definition classify (stdout : bool) (s : list byte) : Fetch.kind :=
  if starts_with s [x1f; x8b] then Fetch.Gzip
  else if starts_with s (Bytes.of_string "BZh") then Fetch.Bzip2
  else if negb stdout && starts_with s (Bytes.of_string "PK") then Fetch.Zip
  else if negb stdout && bytes_at_equal 257 s (Bytes.of_string "ustar")
  then Fetch.Tar
  else Fetch.Opaque.

(** The permission policy of section 4.4 for a directory: owner write and
    execute always; group execute when a group read or write bit is set;
    other execute when an other read or write bit is set. *)
Definition directory_mode (mode : Z) : Z :=
  let owner := octal [0; 3; 0; 0] in
  let group := if Z.eqb (Z.land mode (octal [0; 0; 6; 0])) 0
               then 0%Z else octal [0; 0; 1; 0] in
  let other := if Z.eqb (Z.land mode (octal [0; 0; 0; 6])) 0
               then 0%Z else octal [0; 0; 0; 1] in
  Z.lor mode (Z.lor owner (Z.lor group other)).

(** "Outside the destination directory", on the tree: the physical path
    [p] is neither at or below the directory [root] nor one of the
    directories above it. *)
Fixpoint below (root p : OS.ppath) : bool :=
  match root, p with
  | [], _ => true
  | a :: root', b :: p' => String.eqb a b && below root' p'
  | _ :: _, [] => false
  end.

Definition outside (root p : OS.ppath) : bool :=
  negb (below root p) && negb (below p root).

(** A node was created at [p]: nothing was there before, something is now. *)
Definition created (before after : OS.fsys) (p : OS.ppath) : Prop :=
  OS.lookup before p = None /\ OS.lookup after p <> None.

End Spec.

(** ** Concrete runs *)

Module Examples.

(** Bytes written in hexadecimal. *)
Definition hex_digit (c : ascii) : nat :=
  let n := nat_of_ascii c in if Nat.leb 97 n then n - 87 else n - 48.

Fixpoint of_hex (s : string) : list byte :=
  match s with
  | String a (String b s') =>
      match Byte.of_N (N.of_nat (16 * hex_digit a + hex_digit b)) with
      | Some x => x :: of_hex s'
      | None => []
      end
  | _ => []
  end.

(** What [inflate] gives, as text, with the bytes left after the stream. *)
Definition inflated (input : list byte) : string * option (list byte) :=
  let '(out, st) := Flate.inflate input in
  (string_of_list_byte out,
   match st with Flate.Done br => Some (Flate.rest br) | _ => None end).

Definition text : string :=
  "It was the best of times, it was the worst of times, it was the age of wisdom, it was the age of foolishness, it was the epoch of belief, it was the epoch of incredulity, it was the season of Light, it was the season of Darkness. ".

Definition to_stdout : config :=
  {| stdout := true; targetIsDir := false; target := "-"; wd := "/home";
     umask := octal [0; 2; 2] |}.

Definition to_out : config :=
  {| stdout := false; targetIsDir := true; target := "/out/"; wd := "/home";
     umask := octal [0; 2; 2] |}.

(** A state with an empty tree (the root alone) and nothing written. *)
Definition fresh (name : string) : state :=
  {| targetName := name; fs := []; stdout_data := []; calls := [] |}.

(** The same with the directory [/out] in the tree. *)
Definition with_out (name : string) : state :=
  {| targetName := name; fs := [(["out"%string], OS.NDir (octal [7; 5; 5]))];
     stdout_data := []; calls := [] |}.

Definition content (s : string) : stream :=
  {| data := Bytes.of_string s; ending := None |}.

Definition an_entry (name : string) (mode size : Z) (body : string) : entry :=
  {| Name := name;
     Info := {| Mode := mode; Size := size; ModTime := None |};
     Body := content body |}.

(** A tree with the directories [/out] and [/etc]. *)
Definition with_out_etc : state :=
  {| targetName := "";
     fs := [(["out"%string], OS.NDir (octal [7; 5; 5]));
            (["etc"%string], OS.NDir (octal [7; 5; 5]))];
     stdout_data := []; calls := [] |}.

(** An archive whose first entry is a link to [/etc] and whose second
    entry is a file named through that link. *)
Definition through_link : archive :=
  {| entries :=
       [ {| Name := "conf";
            Info := {| Mode := Z.lor FileMode.ModeSymlink (octal [7; 7; 7]);
                       Size := 4; ModTime := None |};
            Body := {| data := Bytes.of_string "/etc"; ending := None |} |};
         {| Name := "conf/passwd";
            Info := {| Mode := octal [6; 4; 4]; Size := 2; ModTime := None |};
            Body := {| data := Bytes.of_string "hi"; ending := None |} |} ];
     final := EOF |}.

(** The archive of the scenario of the specification: a directory, a file
    in it and a link to the file. *)
Definition scenario : archive :=
  {| entries :=
       [ an_entry "a/" (Z.lor FileMode.ModeDir (octal [7; 5; 5])) 0 "";
         an_entry "a/file.txt" (octal [6; 4; 4]) 2 "hi";
         an_entry "link" (Z.lor FileMode.ModeSymlink (octal [7; 7; 7])) 10
                  "a/file.txt" ];
     final := EOF |}.

(** An archive whose entry names a path above the destination. *)
Definition dotdot_entry : archive :=
  {| entries :=
       [ {| Name := "../escape.txt";
            Info := {| Mode := octal [6; 4; 4]; Size := 2; ModTime := None |};
            Body := {| data := Bytes.of_string "hi"; ending := None |} |} ];
     final := EOF |}.

(** A destination directory that does not exist yet, named with a
    trailing separator. *)
Definition to_new_dir : config :=
  {| stdout := false; targetIsDir := true; target := "/out/dir/"; wd := "/home";
     umask := octal [0; 2; 2] |}.

(** A gzip stream, and a reader for it that finds no name in the header
    and gives the text [plain]. *)
Definition gzipped : stream :=
  {| data := [x1f; x8b; x08; x00]; ending := None |}.

Definition gunzip_plain (r : stream) : error + string * stream :=
  inr (""%string, {| data := Bytes.of_string "plain"; ending := None |}).

(** A reader that finds the name [..] in the header. *)
Definition gunzip_dotdot (r : stream) : error + string * stream :=
  inr (".."%string, {| data := Bytes.of_string "plain"; ending := None |}).

Definition no_archive (r : stream) : archive := {| entries := []; final := EOF |}.





End Examples.

(** ** Package [path]: the two functions [main] calls *)

Module GoPath.

(** The text after the last slash of [path]; all of it when it has none. *)
Definition last_element (path : string) : string :=
  last (GoStrings.Split path "/") EmptyString.

(** [path.Base]: the last element of [path] once trailing slashes are
    removed; [.] for the empty path and [/] for a path of slashes only. *)
Definition Base (path : string) : string :=
  if String.eqb path "" then "."%string
  else
    match OS.strip_trailing_empty (GoStrings.Split path "/") with
    | [] => "/"%string
    | elems => last elems EmptyString
    end.

(** The suffix of [s] that starts at its last dot, if it has a dot. *)
Fixpoint from_last_dot (s : string) : option string :=
  match s with
  | EmptyString => None
  | String c s' =>
      match from_last_dot s' with
      | Some x => Some x
      | None => if Ascii.eqb c "." then Some s else None
      end
  end.

(** [path.Ext]: the suffix beginning at the final dot in the final element
    of [path]; empty if there is no dot. *)
Definition Ext (path : string) : string :=
  match from_last_dot (last_element path) with
  | Some x => x
  | None => EmptyString
  end.

End GoPath.

(** ** The scan of [Clean], for the proofs about joined paths *)

Module Cleaning.

(** An element the scan of [Clean] keeps on its stack. *)
Definition kept (x : string) : Prop :=
  (String.eqb x "" || String.eqb x ".") = false /\
  GoStrings.ContainsRune x Filepath.Separator = false.

(** The stack the elements of a path are resolved on by [Abs]: empty for an
    absolute path, the elements of the working directory otherwise. *)
Definition base (wd p : string) : list string :=
  if Filepath.IsAbs p then []
  else fold_left (Filepath.clean_step true)
                 (GoStrings.Split wd Filepath.Separator) [].

End Cleaning.

(** ** Trees that path resolution cannot tell apart *)

Module Tree.

(** What path resolution looks at in a node: whether it is there, its
    kind, and where it points when it is a link. *)
Definition same_kind (a b : option OS.node) : Prop :=
  match a, b with
  | None, None => True
  | Some (OS.NDir _), Some (OS.NDir _) => True
  | Some (OS.NFile _ _ _), Some (OS.NFile _ _ _) => True
  | Some (OS.NLink t), Some (OS.NLink t') => t = t'
  | _, _ => False
  end.

End Tree.

(** ** [main] of the newest revision, once the arguments are read *)

(** What [http.Get] gives [main]: the status, the [Content-Disposition]
    header (empty when absent), the path of the final URL and the body. *)
Record response := {
  StatusCode : Z;
  Status : string;
  ContentDisposition : string;
  RequestURLPath : string;
  ResBody : stream
}.

Module Main.
Local Open Scope go_scope.

(** [params[key]] on the map [mime.ParseMediaType] returns: the zero value
    for a missing key and for the nil map. *)
Fixpoint index (params : list (string * string)) (key : string) : string :=
  match params with
  | [] => EmptyString
  | (k, v) :: rest => if String.eqb k key then v else index rest key
  end.

Definition index_map (params : option (list (string * string))) (key : string)
  : string :=
  match params with
  | None => EmptyString
  | Some m => index m key
  end.


Section Program.

(** The working directory and umask of the process, and the libraries
    [main] reaches: [http.Get]; [mime.ParseMediaType], with the media type,
    the map of parameters ([None] for the nil map) and the error it
    returns; the [Path] of the URL [url.Parse] makes of the source; and
    the readers of compressed data and archives. *)
Variable wd0 : string.
Variable umask0 : Z.
Variable http_Get : string -> error + response.
Variable mime_ParseMediaType :
  string -> string * option (list (string * string)) * option error.
Variable url_Parse_Path : string -> string.
Variable gzip_NewReader : stream -> error + string * stream.
Variable bzip2_NewReader : stream -> stream.
Variable zipstream_NewReader : stream -> archive.
Variable tar_NewReader : stream -> archive.


(** "target file name": the three steps that set [targetName] when the
    target is a directory. *)
Definition inferName (source : string) (res : response) (targetName : string)
  : string :=
  (* use content disposition *)
  let targetName :=
    let disp := ContentDisposition res in
    if negb (String.eqb disp "") then
      let '(_, params, err) := mime_ParseMediaType disp in
      match err with
      | Some _ => index_map params "filename"
      | None => targetName
      end
    else targetName in
  (* use the base name of the final URL, if it has an extension *)
  let targetName :=
    if String.eqb targetName "" then GoPath.Base (RequestURLPath res)
    else targetName in
  (* use the base name of the source url, since it's more predictable *)
  if Nat.leb (String.length (GoPath.Ext targetName)) 1
  then GoPath.Base (url_Parse_Path source)
  else targetName.


(** The plain writer, [write(r, targetFile())]: the file is chosen and
    opened first, then the stream is copied to it. *)
Definition plain (cfg : config) (r : stream) : M unit :=
  f <- Fetch.targetFile cfg ;;
  err <- Fetch.write r f ;;
  match err with Some e => fail e | None => ret tt end.


End Program.
End Main.

(** ** The loop of [unarchive] in [src/main.go] *)

Module EarlierLoop.
Local Open Scope go_scope.

Section Program.
Variable cfg : config.

(** [unarchiveNext] is the same function in both revisions. *)
Fixpoint unarchive (fuel : nat) (a : reader) : M unit :=
  match fuel with
  | 0 => diverge
  | S fuel' =>
      match Fetch.unarchiveNext a with
      | (Ok (inl err), _) =>
          match err with
          | EOF => ret tt
          | _ => fail err
          end
      | (Ok (inr (name, fi, body)), a') =>
          Earlier.unarchive_entry cfg name fi body ;;;
          unarchive fuel' a'
      | (Fatal e, _) => fail e
      | (Panic msg, _) => panic msg
      | (OutOfFuel, _) => diverge
      end
  end.

(** The entries the [switch] has a case for. *)
Definition supported (e : entry) : bool :=
  FileMode.IsDir (Mode (Info e)) || FileMode.IsRegular (Mode (Info e)) ||
  negb (Z.land (Mode (Info e)) FileMode.ModeSymlink =? 0)%Z.

End Program.
End EarlierLoop.

(** * Facts about the library functions *)

Module BytesFacts.
Import Bytes.

Lemma byte_eqb_eq (a b : byte) : Byte.eqb a b = true <-> a = b.
Proof.
  split.
  - apply Byte.byte_dec_bl.
  - apply Byte.byte_dec_lb.
Qed.

Lemma Equal_eq (a b : list byte) : Equal a b = true <-> a = b.
Proof.
  revert b; induction a as [|x a IH]; intros [|y b]; simpl; split;
    try congruence; try reflexivity.
  - intros H. apply andb_true_iff in H as [H1 H2].
    apply byte_eqb_eq in H1. apply IH in H2. congruence.
  - intros H. injection H as -> ->. apply andb_true_iff. split.
    + now apply byte_eqb_eq.
    + now apply IH.
Qed.

Lemma HasPrefix_firstn (s p : list byte) :
  HasPrefix s p = true <-> firstn (List.length p) s = p.
Proof.
  revert s; induction p as [|c p IH]; intros s; simpl.
  - split; reflexivity.
  - destruct s as [|d s]; simpl.
    + split; discriminate.
    + rewrite andb_true_iff, byte_eqb_eq, IH. split.
      * intros [-> ->]. reflexivity.
      * intros H. injection H as -> H. split; [reflexivity | exact H].
Qed.

Lemma HasPrefix_app (s p : list byte) :
  HasPrefix s p = true <-> exists t, s = p ++ t.
Proof.
  rewrite HasPrefix_firstn. split.
  - intros H. exists (skipn (List.length p) s).
    rewrite <- H at 1. symmetry. apply firstn_skipn.
  - intros [t ->]. rewrite firstn_app, Nat.sub_diag, firstn_all. simpl.
    apply app_nil_r.
Qed.

Lemma HasPrefix_length (s p : list byte) :
  HasPrefix s p = true -> List.length p <= List.length s.
Proof.
  intros H. apply HasPrefix_app in H as [t ->]. rewrite length_app. lia.
Qed.

(** A prefix test only looks at the first [length p] bytes: truncating the
    slice to a window at least that long does not change its outcome. *)
Lemma HasPrefix_window (n : nat) (s p : list byte) :
  List.length p <= n -> HasPrefix (firstn n s) p = HasPrefix s p.
Proof.
  intros Hn. apply eq_true_iff_eq. rewrite !HasPrefix_firstn.
  rewrite firstn_firstn. replace (Nat.min (List.length p) n) with (List.length p) by lia.
  reflexivity.
Qed.

End BytesFacts.

Module GoStringsFacts.
Import GoStrings.

Lemma HasPrefix_append (s p : string) :
  HasPrefix s p = true <-> exists t, s = (p ++ t)%string.
Proof.
  revert s; induction p as [|c p IH]; intros s; simpl.
  - split; [intros _; now exists s | reflexivity].
  - destruct s as [|d s].
    + split; [discriminate | intros [t H]; discriminate].
    + rewrite andb_true_iff, Ascii.eqb_eq, IH. split.
      * intros [-> [t ->]]. now exists t.
      * intros [t H]. injection H as -> ->. split; [reflexivity | now exists t].
Qed.


Lemma string_app_assoc (a b c : string) :
  ((a ++ b) ++ c = a ++ (b ++ c))%string.
Proof. induction a as [|x a IH]; simpl; [reflexivity | now rewrite IH]. Qed.







End GoStringsFacts.

Module FilepathFacts.
Import Filepath.

Example Clean_dotdot : Clean "/out//../etc/./passwd" = "/etc/passwd"%string.
Proof. reflexivity. Qed.

Example Clean_relative : Clean "a/../../b/" = "../b"%string.
Proof. reflexivity. Qed.

Example Clean_root : Clean "/../.." = "/"%string.
Proof. reflexivity. Qed.

Example Join_escape : Join ["/out/"; "../escape.txt"]%string = "/escape.txt"%string.
Proof. reflexivity. Qed.

Example Join_inside : Join ["/out/"; "a/file.txt"]%string = "/out/a/file.txt"%string.
Proof. reflexivity. Qed.

Example Dir_file : Dir "/out/a/file.txt" = "/out/a"%string.
Proof. reflexivity. Qed.

Example Dir_top : Dir "/out" = "/"%string.
Proof. reflexivity. Qed.

Example Dir_plain : Dir "out" = "."%string.
Proof. reflexivity. Qed.

End FilepathFacts.

(** * The readers of compressed data on streams made by zlib and gzip *)

Module CodecExamples.
Local Open Scope string_scope.

(** A block with dynamic Huffman codes. *)
Example inflate_dynamic :
  Examples.inflated (Examples.of_hex
       ("75cdc10980301044d156b600b10a2f824d243a318b312bd99560f79293087a7e"
       ++ "7f98d1a83a258b200f359240c63bb4237ea44af923b7a241655d64ff92209258"
       ++ "6386be8738648e2df0488cf06d9ce782e54c6cd72b503895dc8a89d7683f36b8"
       ++ "b2b5df9e6e"))
  = (Examples.text, Some []).
Proof. vm_compute. reflexivity. Qed.

(** A block with the fixed Huffman codes. *)
Example inflate_fixed :
  Examples.inflated (Examples.of_hex
       ("4b4c2a4a4c4e4c4904520a89d8d900"))
  = ("abracadabra abracadabra abracadabra", Some []).
Proof. vm_compute. reflexivity. Qed.

(** A stored block, then an empty final block. *)
Example inflate_stored :
  Examples.inflated (Examples.of_hex
       ("010500faff706c61696e"))
  = ("plain", Some []).
Proof. vm_compute. reflexivity. Qed.

(** A file with its name in the header. *)
Example gunzip_named :
  Gzip.NewReader
    {| data := Examples.of_hex
       ("1f8b08080000000002ff68656c6c6f2e74787400cb48cdc9c95728cf2fca49d1"
       ++ "51c80073d2ab320bb800ed5f84e818000000");
       ending := None |}
  = inr ("hello.txt", {| data := Bytes.of_string "hello world, hello gzip" ++ [x0a] ++ Bytes.of_string ""; ending := None |}).
Proof. vm_compute. reflexivity. Qed.

(** Two members, one after the other. *)
Example gunzip_members :
  Gzip.NewReader
    {| data := Examples.of_hex
       ("1f8b08080000000002ff68656c6c6f2e74787400cb48cdc9c95728cf2fca49d1"
       ++ "51c80073d2ab320bb800ed5f84e8180000001f8b08000000000002ff2b4e4dce"
       ++ "cf4b51c84dcd4d4a2d02002474fa9f0d000000");
       ending := None |}
  = inr ("hello.txt", {| data := Bytes.of_string "hello world, hello gzip" ++ [x0a] ++ Bytes.of_string "second member"; ending := None |}).
Proof. vm_compute. reflexivity. Qed.

(** A wrong checksum is reported at the end of the data. *)
Example gunzip_checksum :
  Gzip.NewReader
    {| data := Examples.of_hex
       ("1f8b08080000000002ff68656c6c6f2e74787400cb48cdc9c95728cf2fca49d1"
       ++ "51c80073d2ab320bb800ed5f84e918000000");
       ending := None |}
  = inr ("hello.txt", {| data := Bytes.of_string "hello world, hello gzip" ++ [x0a] ++ Bytes.of_string ""; ending := Some Gzip.ErrChecksum |}).
Proof. vm_compute. reflexivity. Qed.

Example gunzip_empty : Gzip.NewReader {| data := []; ending := None |} = inl EOF.
Proof. reflexivity. Qed.

Example gunzip_not_deflate :
  Gzip.NewReader {| data := Examples.of_hex "1f8b07000000000000030000"; ending := None |}
  = inl Gzip.ErrHeader.
Proof. reflexivity. Qed.

End CodecExamples.

(** * The format sniffer *)

Module SnifferFacts.
Import BytesFacts.

Lemma starts_with_HasPrefix (s p : list byte) :
  Spec.starts_with s p = Bytes.HasPrefix s p.
Proof.
  unfold Spec.starts_with. apply eq_true_iff_eq.
  now rewrite Equal_eq, HasPrefix_firstn.
Qed.

Lemma peeked_prefix (n : nat) (s p : list byte) :
  List.length p <= n ->
  Bytes.HasPrefix (firstn n s) p = Spec.starts_with s p.
Proof.
  intros H. rewrite starts_with_HasPrefix. now apply HasPrefix_window.
Qed.

(** The guarded slice test of the tar case, for any window that holds the
    magic field: it never panics, and it is the comparison of the bytes at
    the offset. *)
Lemma guarded_slice_test (n off : nat) (s p : list byte) :
  off + List.length p <= n -> p <> [] ->
  (if Nat.ltb off (List.length (firstn n s))
   then match Bytes.slice_from off (firstn n s) with
        | None => None
        | Some rest => Some (Bytes.HasPrefix rest p)
        end
   else Some false)
  = Some (Spec.bytes_at_equal off s p).
Proof.
  intros Hn Hp. unfold Spec.bytes_at_equal, Bytes.slice_from.
  fold (Spec.starts_with (skipn off s) p).
  destruct (Nat.ltb off (List.length (firstn n s))) eqn:E.
  - apply Nat.ltb_lt in E.
    replace (Nat.leb off (List.length (firstn n s))) with true
      by (symmetry; apply Nat.leb_le; lia).
    f_equal.
    rewrite skipn_firstn_comm.
    apply peeked_prefix. lia.
  - apply Nat.ltb_ge in E. rewrite length_firstn in E.
    assert (Hs : List.length s <= off)
      by (destruct p; [congruence | simpl in Hn; lia]).
    f_equal. symmetry.
    rewrite starts_with_HasPrefix, (skipn_all2 s Hs).
    destruct p; [congruence | reflexivity].
Qed.

Lemma uncompress_case_window (cfg : config) (n : nat) (s : list byte) :
  262 <= n ->
  Fetch.uncompress_case cfg (firstn n s) = Some (Spec.classify (stdout cfg) s).
Proof.
  intros Hn. unfold Fetch.uncompress_case, Spec.classify, Fetch.gzipMagic.
  rewrite !peeked_prefix by (simpl; lia).
  destruct (Spec.starts_with s [x1f; x8b]); [reflexivity|].
  destruct (Spec.starts_with s (Bytes.of_string "BZh")); [reflexivity|].
  destruct (stdout cfg); [reflexivity|].
  cbn [negb andb].
  destruct (Spec.starts_with s (Bytes.of_string "PK")); [reflexivity|].
  set (u := Bytes.of_string "ustar").
  assert (G := guarded_slice_test n 257 s u).
  assert (Hu1 : 257 + List.length u <= n) by (subst u; simpl; lia).
  assert (Hu2 : u <> []) by (subst u; discriminate).
  specialize (G Hu1 Hu2). clearbody u.
  destruct (Nat.ltb 257 (List.length (firstn n s))).
  - destruct (Bytes.slice_from 257 (firstn n s)) as [rest|]; [|discriminate].
    injection G as <-. now destruct (Bytes.HasPrefix rest u).
  - injection G as <-. reflexivity.
Qed.

(** With standard output as destination the archive cases are closed. *)
Lemma classify_stdout (s : list byte) :
  Spec.classify true s = Fetch.Gzip \/
  Spec.classify true s = Fetch.Bzip2 \/
  Spec.classify true s = Fetch.Opaque.
Proof.
  unfold Spec.classify.
  destruct (Spec.starts_with s [x1f; x8b]); [now left|].
  destruct (Spec.starts_with s (Bytes.of_string "BZh")); [now right; left|].
  now right; right.
Qed.

End SnifferFacts.

Section SnifferClaims.
Import SnifferFacts.
Variable cfg : config.

(** One call of [uncompress], with the peeked window written out. *)
Lemma uncompress_unfold gz bz zp tr (fuel : nat) (r : stream) :
  Fetch.uncompress cfg gz bz zp tr (S fuel) r =
  match Fetch.uncompress_case cfg (firstn 264 (data r)) with
  | None => panic "slice bounds out of range"
  | Some Fetch.Gzip =>
      match gz r with
      | inl err => fail err
      | inr (zr_Name, zr) =>
          bind (get targetName) (fun targetName =>
          bind (modify (set_targetName
                          (if negb (String.eqb zr_Name "") then zr_Name
                           else GoStrings.TrimSuffix targetName ".gz")))
               (fun _ => Fetch.uncompress cfg gz bz zp tr fuel zr))
      end
  | Some Fetch.Bzip2 =>
      bind (get targetName) (fun targetName =>
      bind (modify (set_targetName (GoStrings.TrimSuffix targetName ".bz2")))
           (fun _ => Fetch.uncompress cfg gz bz zp tr fuel (bz r)))
  | Some Fetch.Zip => Fetch.unarchive cfg (ZipReader (zp r)) (target cfg)
  | Some Fetch.Tar => Fetch.unarchive cfg (TarReader (tr r)) (target cfg)
  | Some Fetch.Opaque =>
      bind (Fetch.targetFile cfg) (fun f =>
      bind (Fetch.write r f) (fun err =>
      match err with Some e => fail e | None => ret tt end))
  end.
Proof. reflexivity. Qed.


End SnifferClaims.



(** C4, as the specification states it, fails: a two-byte stream holding
    the gzip magic is shorter than the window and is classified gzip. *)
Lemma C4_short_prefix_not_always_opaque :
  ~ (forall (cfg : config) (r : stream),
       List.length (data r) < 264 ->
       Fetch.uncompress_case cfg (fst (fst (Peek 264 r))) = Some Fetch.Opaque).
Proof.
  intros H.
  specialize (H Examples.to_stdout {| data := [x1f; x8b]; ending := None |}).
  simpl in H. discriminate H. lia.
Qed.

(** C4, amended.  On an input shorter than the window the peek gives the
    whole input, evaluating the cases never panics, and the case taken is
    the classification of the specification on the bytes that are there:
    an input shorter than two bytes is opaque and one shorter than 262
    bytes is never tar, while a short input that starts with a magic is
    classified by it. *)
Theorem C4_short_prefix_classification (cfg : config) (r : stream) :
  List.length (data r) < 264 ->
  let magic := fst (fst (Peek 264 r)) in
  magic = data r /\
  Fetch.uncompress_case cfg magic <> None /\
  Fetch.uncompress_case cfg magic = Some (Spec.classify (stdout cfg) (data r)) /\
  (List.length (data r) < 2 -> Fetch.uncompress_case cfg magic = Some Fetch.Opaque) /\
  (List.length (data r) < 262 -> Fetch.uncompress_case cfg magic <> Some Fetch.Tar).
Proof.
  intros Hlen. unfold Peek. cbn [fst].
  assert (Hc := SnifferFacts.uncompress_case_window cfg 264 (data r)
                  ltac:(lia)).
  split; [apply firstn_all2; lia|].
  split; [rewrite Hc; discriminate|].
  split; [exact Hc|].
  rewrite Hc. unfold Spec.classify, Spec.starts_with, Spec.bytes_at_equal.
  split; intros Hs.
  - destruct (data r) as [|a [|b l]]; simpl in Hs; try lia.
    + now destruct (stdout cfg).
    + cbn. rewrite !andb_false_r. now destruct (stdout cfg).
  - destruct (Bytes.Equal _ [x1f; x8b]); [discriminate|].
    destruct (Bytes.Equal _ (Bytes.of_string "BZh")); [discriminate|].
    destruct (negb (stdout cfg) && Bytes.Equal _ (Bytes.of_string "PK"));
      [discriminate|].
    replace (Bytes.Equal _ (Bytes.of_string "ustar")) with false.
    + rewrite andb_false_r. discriminate.
    + symmetry. apply not_true_is_false. intros E.
      apply BytesFacts.Equal_eq in E.
      apply (f_equal (@List.length byte)) in E.
      rewrite length_firstn, length_skipn in E.
      change (List.length (Bytes.of_string "ustar")) with 5 in E. lia.
Qed.

Lemma C4_short_prefix_classification_witness :
  Fetch.uncompress_case Examples.to_stdout
    (fst (fst (Peek 264 {| data := [x42]; ending := None |}))) = Some Fetch.Opaque.
Proof.
  refine (proj1 (proj2 (proj2 (proj2
    (C4_short_prefix_classification Examples.to_stdout
       {| data := [x42]; ending := None |} _)))) _); simpl; lia.
Defined.

(** * Permission bits *)

Module PermFacts.
Local Open Scope Z_scope.

Lemma lor_land_absorb (m x : Z) : Z.lor m (Z.land m x) = m.
Proof.
  apply Z.bits_inj'. intros n _.
  rewrite Z.lor_spec, Z.land_spec. now destruct (Z.testbit m n), (Z.testbit x n).
Qed.

(** Masking with one bit gives that bit or nothing. *)
Lemma land_pow2 (m k : Z) :
  0 <= k -> Z.land m (2 ^ k) = if Z.testbit m k then 2 ^ k else 0.
Proof.
  intros Hk. apply Z.bits_inj'. intros n Hn.
  rewrite Z.land_spec, Z.pow2_bits_eqb by assumption.
  destruct (Z.eqb_spec k n) as [->|Hne].
  - rewrite andb_true_r. destruct (Z.testbit m n) eqn:E.
    + now rewrite Z.pow2_bits_true.
    + now rewrite Z.bits_0.
  - rewrite andb_false_r. destruct (Z.testbit m k).
    + now rewrite Z.pow2_bits_false.
    + now rewrite Z.bits_0.
Qed.

(** Setting the execute bit [x] when any bit of [rw] or [x] itself is set
    is setting it when any bit of [rw] is set. *)
Lemma add_execute_bit (m rw x k : Z) :
  0 <= k -> x = 2 ^ k ->
  Z.lor m (if negb (Z.land m (Z.lor rw x) =? 0) then x else 0) =
  Z.lor m (if negb (Z.land m rw =? 0) then x else 0).
Proof.
  intros Hk ->. rewrite Z.land_lor_distr_r.
  destruct (Z.eqb_spec (Z.land m rw) 0) as [E|E]; cbn [negb].
  - rewrite E, Z.lor_0_l.
    pose proof (land_pow2 m k Hk) as P.
    destruct (Z.testbit m k).
    + rewrite <- P at 2. rewrite P.
      assert (2 ^ k <> 0) by (apply Z.pow_nonzero; lia).
      destruct (Z.eqb_spec (2 ^ k) 0); [contradiction|]. cbn [negb].
      rewrite <- P. rewrite lor_land_absorb. now rewrite Z.lor_0_r.
    + rewrite P. reflexivity.
  - destruct (Z.eqb_spec (Z.lor (Z.land m rw) (Z.land m (2 ^ k))) 0) as [F|F];
      [|reflexivity].
    apply Z.lor_eq_0_iff in F. tauto.
Qed.

Lemma if_lor (b : bool) (m x : Z) :
  (if b then Z.lor m x else m) = Z.lor m (if b then x else 0).
Proof. destruct b; [reflexivity | now rewrite Z.lor_0_r]. Qed.

(** [unarchivePerm] is the permission policy of the specification. *)
Lemma unarchivePerm_directory_mode (mode : Z) :
  Fetch.unarchivePerm mode = Spec.directory_mode mode.
Proof.
  unfold Fetch.unarchivePerm, Spec.directory_mode.
  change (octal [0; 0; 0; 7]%nat) with (Z.lor 6 1).
  change (octal [0; 0; 7; 0]%nat) with (Z.lor 48 8).
  change (octal [0; 0; 0; 1]%nat) with 1.
  change (octal [0; 0; 1; 0]%nat) with 8.
  change (octal [0; 0; 6; 0]%nat) with 48.
  change (octal [0; 0; 0; 6]%nat) with 6.
  set (owner := octal [0; 3; 0; 0]%nat).
  rewrite (if_lor _ mode 1).
  rewrite (add_execute_bit mode 6 1 0) by (reflexivity || lia).
  set (o := if negb (Z.land mode 6 =? 0) then 1 else 0).
  rewrite (if_lor _ (Z.lor mode o) 8).
  assert (Ho : Z.land (Z.lor mode o) (Z.lor 48 8) = Z.land mode (Z.lor 48 8)).
  { rewrite Z.land_lor_distr_l.
    replace (Z.land o (Z.lor 48 8)) with 0
      by (subst o; destruct (negb _); reflexivity).
    apply Z.lor_0_r. }
  rewrite Ho.
  rewrite <- (Z.lor_assoc mode o), (Z.lor_comm o), (Z.lor_assoc mode).
  rewrite (add_execute_bit mode 48 8 3) by (reflexivity || lia).
  set (g := if negb (Z.land mode 48 =? 0) then 8 else 0).
  replace (if Z.land mode 48 =? 0 then 0 else 8) with g
    by (subst g; now destruct (Z.land mode 48 =? 0)).
  replace (if Z.land mode 6 =? 0 then 0 else 1) with o
    by (subst o; now destruct (Z.land mode 6 =? 0)).
  rewrite <- !Z.lor_assoc. f_equal.
  rewrite (Z.lor_comm owner). rewrite <- Z.lor_assoc.
  rewrite (Z.lor_comm o). rewrite !Z.lor_assoc. reflexivity.
Qed.

End PermFacts.

(** * The file tree *)

Module OSFacts.
Import OS.

Lemma ppath_eqb_eq (p q : ppath) : ppath_eqb p q = true <-> p = q.
Proof.
  revert q; induction p as [|a p IH]; intros [|b q]; simpl;
    try (split; (discriminate || reflexivity)).
  rewrite andb_true_iff, String.eqb_eq, IH. split.
  - now intros [-> ->].
  - intros H. injection H as -> ->. now split.
Qed.

Lemma ppath_eqb_refl (p : ppath) : ppath_eqb p p = true.
Proof. now apply ppath_eqb_eq. Qed.

Lemma lookup_insert (fs : fsys) (p q : ppath) (n : node) :
  lookup ((p, n) :: fs) q = if ppath_eqb p q then Some n else lookup fs q.
Proof. unfold lookup. simpl. now destruct (ppath_eqb p q). Qed.

Lemma lookup_insert_eq (fs : fsys) (p : ppath) (n : node) :
  lookup ((p, n) :: fs) p = Some n.
Proof. now rewrite lookup_insert, ppath_eqb_refl. Qed.

(** A path bound in the tree is not the free path [p]: binding [p] leaves
    what is found there as it was. *)
Lemma lookup_insert_bound (fs : fsys) (p q : ppath) (n m : node) :
  lookup fs p = None -> lookup fs q = Some m ->
  lookup ((p, n) :: fs) q = Some m.
Proof.
  intros Hp Hq. rewrite lookup_insert.
  destruct (ppath_eqb p q) eqn:E; [|exact Hq].
  apply ppath_eqb_eq in E. congruence.
Qed.

(** Resolution is stable under the creation of its own result: when a path
    resolves to a free place [p], it resolves to [p] again once a node is
    bound there (a link, only when the last component is not followed). *)
Lemma namei_insert (n : node) (p : ppath) (follow : bool) :
  is_link n && follow = false ->
  forall (fuel : nat) (fs : fsys) (cur : ppath) (elems : list string),
    lookup fs p = None ->
    namei fuel fs cur elems follow = inr p ->
    namei fuel ((p, n) :: fs) cur elems follow = inr p.
Proof.
  intros Hn fuel fs. induction fuel as [|fuel IH]; intros cur elems Hp H.
  - destruct elems; [exact H | discriminate H].
  - destruct elems as [|e rest]; [exact H|].
    cbn [namei] in *.
    destruct (String.eqb e ".."); [now apply IH|].
    destruct (lookup fs (cur ++ [e])) as [m|] eqn:L.
    + assert (L' := lookup_insert_bound fs p _ n m Hp L).
      rewrite L'. destruct m as [perm|perm c t|t].
      * now apply IH.
      * destruct (is_nil rest); [|discriminate H].
        injection H as <-. congruence.
      * destruct (is_nil rest && negb follow).
        -- injection H as <-. congruence.
        -- now apply IH.
    + destruct (is_nil rest) eqn:R; [|discriminate H].
      injection H as <-. rewrite lookup_insert_eq.
      destruct rest; [|discriminate R].
      destruct n as [perm|perm c t|t]; cbn [is_nil andb].
      * now destruct fuel.
      * reflexivity.
      * destruct follow; [discriminate Hn | reflexivity].
Qed.


Section Process.
Variable wd : string.
Variable umask : Z.

Lemma resolve_insert (fs : fsys) (path : string) (p : ppath) (n : node)
  (follow : bool) :
  is_link n && follow = false ->
  lookup fs p = None ->
  resolve wd fs path follow = inr p ->
  resolve wd ((p, n) :: fs) path follow = inr p.
Proof.
  unfold resolve. intros Hn Hp H.
  destruct (String.eqb path ""); [discriminate H|].
  now apply namei_insert.
Qed.





End Process.

End OSFacts.

(** * The secure extractor: one entry *)

Module ExtractFacts.
Import OSFacts.
Import Fetch.
Local Open Scope go_scope.

Ltac run := unfold bind, ret, fail, get, modify, panic, diverge;
            cbn beta iota.

Section Entry.
Variable cfg : config.

Lemma entry_illegal (dir name : string) (fi : FileInfo) (r : stream) (st : state) :
  GoStrings.HasPrefix (entry_path dir name) dir = false ->
  Fetch.unarchive_entry cfg dir name fi r st = (Fatal (IllegalFilePath name), st).
Proof.
  intros H. unfold Fetch.unarchive_entry. now rewrite H.
Qed.

Lemma entry_directory (dir name : string) (fi : FileInfo) (r : stream) :
  GoStrings.HasPrefix (entry_path dir name) dir = true ->
  FileMode.IsDir (Mode fi) = true ->
  Fetch.unarchive_entry cfg dir name fi r =
  (err <- os_MkdirAll cfg (entry_path dir name) (Fetch.unarchivePerm (Mode fi)) ;;
   match err with Some e => fail e | None => ret tt end).
Proof.
  intros H D. unfold Fetch.unarchive_entry. now rewrite H, D.
Qed.

Lemma entry_regular (dir name : string) (fi : FileInfo) (r : stream) :
  GoStrings.HasPrefix (entry_path dir name) dir = true ->
  FileMode.IsDir (Mode fi) = false ->
  FileMode.IsRegular (Mode fi) = true ->
  Fetch.unarchive_entry cfg dir name fi r =
  (f <- os_OpenFile cfg (entry_path dir name) (Mode fi) ;;
   match f with
   | inl e => fail e
   | inr f =>
       ne <- io_Copy f r ;;
       let '(n, err) := ne in
       cerr <- Close f ;;
       let err := match err with None => cerr | Some _ => err end in
       match err with
       | Some e => fail (ErrorWriting name e)
       | None =>
           if negb (n =? Size fi)%Z then fail (WroteBytes n name (Size fi))
           else
             match ModTime fi with
             | Some time =>
                 _ <- os_Chtimes cfg (entry_path dir name) time ;; ret tt
             | None => ret tt
             end
       end
   end).
Proof.
  intros H D R. unfold Fetch.unarchive_entry. now rewrite H, D, R.
Qed.

(** A mode with the symlink bit is not the mode of a regular file. *)
Lemma symlink_not_regular (mode : Z) :
  Z.land mode FileMode.ModeSymlink <> 0%Z -> FileMode.IsRegular mode = false.
Proof.
  intros H. unfold FileMode.IsRegular.
  destruct (Z.eqb_spec (Z.land mode FileMode.ModeType) 0) as [E|E]; [|reflexivity].
  exfalso. apply H.
  replace FileMode.ModeSymlink
    with (Z.land FileMode.ModeType FileMode.ModeSymlink) by reflexivity.
  now rewrite Z.land_assoc, E.
Qed.

Lemma entry_symlink (dir name : string) (fi : FileInfo) (r : stream) :
  GoStrings.HasPrefix (entry_path dir name) dir = true ->
  FileMode.IsDir (Mode fi) = false ->
  Z.land (Mode fi) FileMode.ModeSymlink <> 0%Z ->
  Fetch.unarchive_entry cfg dir name fi r =
  match ending r with
  | Some e => fail e
  | None =>
      err <- os_Symlink cfg (string_of_list_byte (data r)) (entry_path dir name) ;;
      match err with Some e => fail e | None => ret tt end
  end.
Proof.
  intros H D L. unfold Fetch.unarchive_entry. rewrite H, D, (symlink_not_regular _ L).
  destruct (Z.eqb_spec (Z.land (Mode fi) FileMode.ModeSymlink) 0); [contradiction|].
  reflexivity.
Qed.

Lemma entry_unsupported (dir name : string) (fi : FileInfo) (r : stream) (st : state) :
  GoStrings.HasPrefix (entry_path dir name) dir = true ->
  FileMode.IsDir (Mode fi) = false ->
  FileMode.IsRegular (Mode fi) = false ->
  Z.land (Mode fi) FileMode.ModeSymlink = 0%Z ->
  Fetch.unarchive_entry cfg dir name fi r st
  = (Fatal (UnsupportedFile name (Mode fi)), st).
Proof.
  intros H D R L. unfold Fetch.unarchive_entry. now rewrite H, D, R, L.
Qed.

(** Every [os] call an entry makes is at the path of the entry, and is made
    only after the containment check has passed; the entry is done or the
    run ends with a fatal error. *)
Lemma entry_calls (dir name : string) (fi : FileInfo) (r : stream)
  (st st' : state) (res : result unit) :
  Fetch.unarchive_entry cfg dir name fi r st = (res, st') ->
  (res = Ok tt \/ exists e, res = Fatal e) /\
  exists cs,
    calls st' = calls st ++ cs /\
    Forall (fun c => call_path c = entry_path dir name /\
                     GoStrings.HasPrefix (entry_path dir name) dir = true) cs.
Proof.
  assert (none : forall s : state, calls s = calls s ++ [])
    by (intros; now rewrite app_nil_r).
  destruct (GoStrings.HasPrefix (entry_path dir name) dir) eqn:H.
  2:{ rewrite entry_illegal by assumption. intros E. injection E as <- <-.
      split; [right; eauto | exists []; auto]. }
  destruct (FileMode.IsDir (Mode fi)) eqn:D.
  { rewrite entry_directory by assumption. unfold os_MkdirAll, os_call. run.
    cbn [fs add_call].
    destruct (OS.MkdirAll _ _ _ _ _); intros E; injection E as <- <-;
      (split; [(left; reflexivity) || (right; eauto)
              | eexists; split; cbn; [reflexivity | repeat constructor]]). }
  destruct (FileMode.IsRegular (Mode fi)) eqn:R.
  { rewrite entry_regular by assumption. unfold os_OpenFile, io_Copy, Close. run.
    cbn [fs add_call].
    destruct (OS.OpenFile _ _ _ _ _) as [e|[fs' h]].
    { intros E; injection E as <- <-.
      split; [right; eauto
             | eexists; split; cbn; [reflexivity | repeat constructor]]. }
    cbn [fs set_fs snd].
    destruct (ending r).
    { intros E; injection E as <- <-.
      split; [right; eauto
             | eexists; split; cbn; [reflexivity | repeat constructor]]. }
    destruct (negb _).
    { intros E; injection E as <- <-.
      split; [right; eauto
             | eexists; split; cbn; [reflexivity | repeat constructor]]. }
    destruct (ModTime fi).
    - unfold os_Chtimes, os_call. cbn [fs add_call set_fs].
      destruct (OS.Chtimes _ _ _ _); intros E; injection E as <- <-;
        (split; [left; reflexivity
                | eexists; split; cbn;
                  [rewrite <- app_assoc; reflexivity | repeat constructor]]).
    - intros E; injection E as <- <-.
      split; [left; reflexivity
             | eexists; split; cbn; [reflexivity | repeat constructor]]. }
  destruct (Z.eqb_spec (Z.land (Mode fi) FileMode.ModeSymlink) 0) as [L|L].
  { rewrite entry_unsupported by assumption. intros E. injection E as <- <-.
    split; [right; eauto | exists []; auto]. }
  rewrite entry_symlink by assumption.
  destruct (ending r).
  { intros E; injection E as <- <-.
    split; [right; eauto | exists []; auto]. }
  unfold os_Symlink, os_call. run. cbn [fs add_call].
  destruct (OS.Symlink _ _ _ _); intros E; injection E as <- <-;
    (split; [(left; reflexivity) || (right; eauto)
            | eexists; split; cbn; [reflexivity | repeat constructor]]).
Qed.

(** The loop: its calls are those of its entries. *)
Lemma loop_calls (dir : string) (fuel : nat) :
  forall (r : reader) (st st' : state) (res : result unit),
    Fetch.unarchive_loop cfg fuel r dir st = (res, st') ->
    exists cs,
      calls st' = calls st ++ cs /\
      Forall (fun c => exists name,
                call_path c = entry_path dir name /\
                GoStrings.HasPrefix (entry_path dir name) dir = true) cs.
Proof.
  assert (none : forall s : state, calls s = calls s ++ [])
    by (intros; now rewrite app_nil_r).
  induction fuel as [|fuel IH]; intros r st st' res.
  - cbn. intros E; injection E as <- <-. exists []; auto.
  - cbn [Fetch.unarchive_loop].
    destruct (Fetch.unarchiveNext r) as [[[err|[[name fi] body]]|e|msg|] r'].
    + destruct err; intros E; injection E as <- <-; exists []; auto.
    + unfold bind.
      destruct (Fetch.unarchive_entry cfg dir name fi body st) as [res1 st1] eqn:E1.
      destruct (entry_calls _ _ _ _ _ _ _ E1) as (Hres & cs1 & Hc1 & F1).
      assert (F1' : Forall (fun c => exists name,
                call_path c = entry_path dir name /\
                GoStrings.HasPrefix (entry_path dir name) dir = true) cs1)
        by (eapply Forall_impl; [|exact F1]; cbv beta; eauto).
      destruct Hres as [->|[e ->]].
      * intros E. destruct (IH _ _ _ _ E) as (cs2 & Hc2 & F2).
        exists (cs1 ++ cs2). split.
        -- now rewrite Hc2, Hc1, app_assoc.
        -- now apply Forall_app.
      * intros E; injection E as <- <-. eauto.
    + intros E; injection E as <- <-. exists []; auto.
    + intros E; injection E as <- <-. exists []; auto.
    + intros E; injection E as <- <-. exists []; auto.
Qed.

Lemma unarchiveNext_remaining (r r' : reader) (name : string) (fi : FileInfo)
  (body : stream) :
  Fetch.unarchiveNext r = (Ok (inr (name, fi, body)), r') ->
  Fetch.remaining r = S (Fetch.remaining r').
Proof.
  destruct r as [a|a|s]; unfold Fetch.unarchiveNext, Fetch.next;
    try discriminate;
    destruct (entries a) as [|e es] eqn:Ea; try discriminate;
    intros N; inversion N; subst; cbn; now rewrite Ea.
Qed.

Lemma unarchiveNext_returns (r r' : reader) :
  Fetch.unarchiveNext r <> (OutOfFuel, r').
Proof.
  destruct r as [a|a|s]; unfold Fetch.unarchiveNext, Fetch.next;
    try discriminate; destruct (entries a); discriminate.
Qed.

(** The loop returns: the fuel [unarchive] gives it is never used up. *)
Lemma loop_returns (dir : string) (fuel : nat) :
  forall (r : reader) (st : state),
    Fetch.remaining r < fuel ->
    fst (Fetch.unarchive_loop cfg fuel r dir st) <> OutOfFuel.
Proof.
  induction fuel as [|fuel IH]; intros r st Hf; [lia|].
  cbn [Fetch.unarchive_loop].
  destruct (Fetch.unarchiveNext r) as [[[err|[[name fi] body]]|e|msg|] r'] eqn:N.
  - destruct err; discriminate.
  - unfold bind.
    destruct (Fetch.unarchive_entry cfg dir name fi body st) as [res1 st1] eqn:E1.
    destruct (entry_calls _ _ _ _ _ _ _ E1) as ([->|[e ->]] & _); [|discriminate].
    apply IH. apply unarchiveNext_remaining in N. lia.
  - discriminate.
  - discriminate.
  - exfalso. now apply unarchiveNext_returns in N.
Qed.

(** The two archive readers yield their entries one by one. *)
Lemma unarchiveNext_entry (mk : archive -> reader) (e : entry)
  (es : list entry) (fin : error) :
  mk = TarReader \/ mk = ZipReader ->
  Fetch.unarchiveNext (mk {| entries := e :: es; final := fin |})
  = (Ok (inr (Name e, Info e, Body e)), mk {| entries := es; final := fin |}).
Proof. intros [-> | ->]; reflexivity. Qed.

(** The loop over an archive either ends with a fatal error in its first
    entries or comes to the entries after them. *)
Lemma loop_through (mk : archive -> reader) (dir : string) (rest : list entry)
  (fin : error) :
  mk = TarReader \/ mk = ZipReader ->
  forall (pre : list entry) (fuel : nat) (st : state),
    List.length pre < fuel ->
    (exists e st1,
        Fetch.unarchive_loop cfg fuel
          (mk {| entries := pre ++ rest; final := fin |}) dir st = (Fatal e, st1)) \/
    (exists st1,
        Fetch.unarchive_loop cfg fuel
          (mk {| entries := pre ++ rest; final := fin |}) dir st
        = Fetch.unarchive_loop cfg (fuel - List.length pre)
            (mk {| entries := rest; final := fin |}) dir st1).
Proof.
  intros Hmk pre. induction pre as [|e pre IH]; intros fuel st Hf.
  - right. exists st. cbn [app List.length]. now rewrite Nat.sub_0_r.
  - destruct fuel as [|fuel]; [cbn in Hf; lia|].
    cbn [Fetch.unarchive_loop app].
    rewrite (unarchiveNext_entry mk e (pre ++ rest) fin Hmk). unfold bind.
    destruct (Fetch.unarchive_entry cfg dir (Name e) (Info e) (Body e) st)
      as [res1 st1] eqn:E1.
    destruct (entry_calls _ _ _ _ _ _ _ E1) as ([->|[err ->]] & _).
    + cbn [List.length Nat.sub]. apply IH. cbn in Hf. lia.
    + left. eauto.
Qed.

(** An archive that holds an entry on which the loop body fails is never
    extracted to the end: the run is fatal, at that entry or before it. *)
Lemma unarchive_stops (mk : archive -> reader) (d : string) (e : entry)
  (pre post : list entry) (fin : error) (st : state) :
  mk = TarReader \/ mk = ZipReader ->
  (forall s, exists err,
      Fetch.unarchive_entry cfg (Filepath.Abs (wd cfg) d ++ "/")
        (Name e) (Info e) (Body e) s = (Fatal err, s)) ->
  exists err st1,
    Fetch.unarchive cfg (mk {| entries := pre ++ e :: post; final := fin |}) d st
    = (Fatal err, st1).
Proof.
  intros Hmk He. unfold Fetch.unarchive, bind, os_MkdirAll, os_call, fail.
  cbn [fs add_call].
  destruct (OS.MkdirAll _ _ _ _ _) as [err|fs1]; [eauto|].
  set (dir := (Filepath.Abs (wd cfg) d ++ "/")%string) in *.
  set (st1 := set_fs fs1 _).
  assert (R : Fetch.remaining (mk {| entries := pre ++ e :: post; final := fin |})
              = List.length (pre ++ e :: post))
    by (destruct Hmk as [-> | ->]; reflexivity).
  rewrite R.
  destruct (loop_through mk dir (e :: post) fin Hmk pre
              (S (List.length (pre ++ e :: post))) st1) as [F|[st2 E]].
  - rewrite length_app. lia.
  - exact F.
  - rewrite E. rewrite length_app. cbn [List.length].
    replace (S (List.length pre + S (List.length post)) - List.length pre)
      with (S (S (List.length post))) by lia.
    cbn [Fetch.unarchive_loop].
    rewrite (unarchiveNext_entry mk e post fin Hmk). unfold bind.
    destruct (He st2) as [err ->]. eauto.
Qed.

End Entry.
End ExtractFacts.

(** * Claims about the entries of an archive *)

Section EntryClaims.
Import ExtractFacts OSFacts.
Variable cfg : config.

(** What the tree holds at an open file after the entry has been copied
    into it and its time set. *)
Lemma written_content (fs1 : OS.fsys) (h : OS.ppath) (m : Z) (t : option Z)
  (bytes : list byte) (path : string) (time : Z) (fs3 : OS.fsys) :
  OS.lookup fs1 h = Some (OS.NFile m [] t) ->
  OS.Chtimes (wd cfg) (OS.Write fs1 h bytes) path time = inr fs3 ->
  exists m' t', OS.lookup fs3 h = Some (OS.NFile m' bytes t').
Proof.
  intros L. unfold OS.Write. rewrite L. cbn [app].
  set (fs2 := (h, OS.NFile m bytes t) :: fs1).
  assert (L2 : OS.lookup fs2 h = Some (OS.NFile m bytes t))
    by apply lookup_insert_eq.
  unfold OS.Chtimes.
  destruct (OS.resolve (wd cfg) fs2 path true) as [e|p]; [discriminate|].
  destruct (OS.lookup fs2 p) as [[perm|perm c t0|tg]|] eqn:Lp;
    try discriminate; intros E; injection E as <-; try (now eauto).
  rewrite lookup_insert. destruct (OS.ppath_eqb p h) eqn:Eq.
  - apply ppath_eqb_eq in Eq. subst p. rewrite L2 in Lp.
    injection Lp as <- <- <-. eauto.
  - eauto.
Qed.

Lemma OpenFile_empty (fs0 fs1 : OS.fsys) (path : string) (perm : Z) (h : OS.ppath) :
  OS.OpenFile (wd cfg) (umask cfg) fs0 path perm = inr (fs1, h) ->
  exists m t, OS.lookup fs1 h = Some (OS.NFile m [] t).
Proof.
  unfold OS.OpenFile.
  destruct (OS.resolve (wd cfg) fs0 path true) as [e|p]; [discriminate|].
  destruct (OS.lookup fs0 p) as [[m|m c t|tg]|]; try discriminate;
    intros E; injection E as <- <-; rewrite lookup_insert_eq; eauto.
Qed.

End EntryClaims.

(** C3.  For a regular-file entry that passed the containment check: the
    entry is extracted without error only when its content was read to a
    clean end, the number of bytes copied is the declared size, and the
    file that was opened holds exactly those bytes; a count that differs from the declared
    size (a truncated entry among them) always ends the run with a fatal
    error, which is the size error whenever the file could be opened and
    the content read.  The code makes the comparison for every declared
    size, zero included. *)
Theorem C3_regular_file_size (cfg : config) (dir name : string) (fi : FileInfo)
  (body : stream) (st st' : state) (res : result unit) :
  FileMode.IsDir (Mode fi) = false ->
  FileMode.IsRegular (Mode fi) = true ->
  GoStrings.HasPrefix (Fetch.entry_path dir name) dir = true ->
  Fetch.unarchive_entry cfg dir name fi body st = (res, st') ->
  let n := Z.of_nat (List.length (data body)) in
  (res = Ok tt ->
   ending body = None /\ n = Size fi /\
   exists fs1 h m t,
     OS.OpenFile (wd cfg) (umask cfg) (fs st) (Fetch.entry_path dir name) (Mode fi)
     = inr (fs1, h) /\
     OS.lookup (fs st') h = Some (OS.NFile m (data body) t)) /\
  (n <> Size fi -> exists e, res = Fatal e) /\
  (forall fs1 h,
     OS.OpenFile (wd cfg) (umask cfg) (fs st) (Fetch.entry_path dir name) (Mode fi)
     = inr (fs1, h) ->
     match ending body with
     | Some e => res = Fatal (ErrorWriting name e)
     | None => n <> Size fi -> res = Fatal (WroteBytes n name (Size fi))
     end).
Proof.
  intros D R H. rewrite ExtractFacts.entry_regular by assumption.
  unfold os_OpenFile, io_Copy, Close. ExtractFacts.run. cbn [fs add_call].
  destruct (OS.OpenFile (wd cfg) (umask cfg) (fs st) (Fetch.entry_path dir name) (Mode fi))
    as [e|[fs1 h]] eqn:O.
  { intros E; injection E as <- <-. cbn zeta.
    repeat split; try discriminate; eauto. }
  destruct (OpenFile_empty cfg _ _ _ _ _ O) as (m & t & L1).
  cbn [fs set_fs snd].
  destruct (ending body) as [e|] eqn:Eb.
  { intros E; injection E as <- <-. cbn zeta.
    repeat split; try discriminate; eauto. }
  destruct (Z.eqb_spec (Z.of_nat (List.length (data body))) (Size fi)) as [Es|Es];
    cbn [negb].
  2:{ intros E; injection E as <- <-. cbn zeta.
      repeat split; try discriminate; eauto. }
  assert (Lw : exists m' t',
             OS.lookup (OS.Write fs1 h (data body)) h
             = Some (OS.NFile m' (data body) t')).
  { unfold OS.Write. rewrite L1. cbn [app]. rewrite OSFacts.lookup_insert_eq. eauto. }
  destruct (ModTime fi) as [time|].
  - unfold os_Chtimes, os_call. cbn [fs add_call set_fs].
    destruct (OS.Chtimes (wd cfg) (OS.Write fs1 h (data body))
                (Fetch.entry_path dir name) time) as [e|fs3] eqn:C;
      intros E; injection E as <- <-; cbn zeta; cbn [fs set_fs add_call].
    + destruct Lw as (m' & t' & Lw).
      repeat split; try contradiction; eauto 10.
    + destruct (written_content cfg _ _ _ _ _ _ _ _ L1 C) as (m' & t' & L3).
      repeat split; try contradiction; eauto 10.
  - intros E; injection E as <- <-. cbn zeta. cbn [fs set_fs].
    destruct Lw as (m' & t' & Lw).
    repeat split; try contradiction; eauto 10.
Qed.

Lemma C3_regular_file_size_witness :
  fst (Fetch.unarchive_entry Examples.to_out "/out/" "a.txt"
         {| Mode := octal [6; 4; 4]; Size := 5; ModTime := None |}
         (Examples.content "hi") (Examples.with_out ""))
  = Fatal (WroteBytes 2 "a.txt" 5).
Proof.
  destruct (Fetch.unarchive_entry Examples.to_out "/out/" "a.txt"
              {| Mode := octal [6; 4; 4]; Size := 5; ModTime := None |}
              (Examples.content "hi") (Examples.with_out "")) as [res st'] eqn:E.
  cbn [fst].
  refine (proj2 (proj2 (C3_regular_file_size _ _ _ _ _ _ _ _ _ _ _ E))
            _ _ _ _).
  - reflexivity.
  - reflexivity.
  - reflexivity.
  - vm_compute. reflexivity.
  - vm_compute. discriminate.
Defined.

(** C5.  An entry that is neither a directory, a regular file nor a
    symbolic link ends the run with a fatal error that names the entry: the
    unsupported-file error when its path is inside the destination, the
    illegal-path error otherwise.  Nothing is done for it, and the loop
    that reaches it stops there: no entry after it is looked at.  An
    archive of either reader that holds such an entry anywhere is never
    extracted to the end. *)
Theorem C5_unsupported_entry (cfg : config) (dir name : string) (fi : FileInfo)
  (body : stream) (st : state) :
  FileMode.IsDir (Mode fi) = false ->
  FileMode.IsRegular (Mode fi) = false ->
  Z.land (Mode fi) FileMode.ModeSymlink = 0%Z ->
  (exists e,
     Fetch.unarchive_entry cfg dir name fi body st = (Fatal e, st) /\
     Error_name e = Some name /\
     (GoStrings.HasPrefix (Fetch.entry_path dir name) dir = true ->
      e = UnsupportedFile name (Mode fi)) /\
     (forall fuel r r',
        Fetch.unarchiveNext r = (Ok (inr (name, fi, body)), r') ->
        Fetch.unarchive_loop cfg (S fuel) r dir st = (Fatal e, st))) /\
  (forall mk pre post fin d,
     mk = TarReader \/ mk = ZipReader ->
     exists err st1,
       Fetch.unarchive cfg
         (mk {| entries := pre ++ {| Name := name; Info := fi; Body := body |} :: post;
                final := fin |}) d st
       = (Fatal err, st1)).
Proof.
  intros D R L.
  assert (A : forall dir s, exists e,
             Fetch.unarchive_entry cfg dir name fi body s = (Fatal e, s) /\
             Error_name e = Some name /\
             (GoStrings.HasPrefix (Fetch.entry_path dir name) dir = true ->
              e = UnsupportedFile name (Mode fi))).
  { intros dir0 s.
    destruct (GoStrings.HasPrefix (Fetch.entry_path dir0 name) dir0) eqn:H.
    - exists (UnsupportedFile name (Mode fi)).
      now rewrite (ExtractFacts.entry_unsupported cfg dir0 name fi body s H D R L).
    - exists (IllegalFilePath name).
      rewrite (ExtractFacts.entry_illegal cfg dir0 name fi body s H).
      repeat split. discriminate. }
  split.
  - destruct (A dir st) as (e & E & N & U). exists e.
    repeat split; try assumption.
    intros fuel r r' Hn. cbn [Fetch.unarchive_loop]. rewrite Hn.
    unfold bind. now rewrite E.
  - intros mk pre post fin d Hmk.
    apply (ExtractFacts.unarchive_stops cfg mk d
             {| Name := name; Info := fi; Body := body |} pre post fin st Hmk).
    intros s. destruct (A (Filepath.Abs (wd cfg) d ++ "/")%string s) as (e & E & _).
    eauto.
Qed.

Lemma C5_unsupported_entry_witness :
  Fetch.unarchive_loop Examples.to_out 3
    (TarReader {| entries := [Examples.an_entry "dev/null" FileMode.ModeDevice 0 "";
                              Examples.an_entry "after.txt" (octal [6; 4; 4]) 2 "hi"];
                  final := EOF |})
    "/out/" (Examples.with_out "")
  = (Fatal (UnsupportedFile "dev/null" FileMode.ModeDevice), Examples.with_out "").
Proof.
  destruct (C5_unsupported_entry Examples.to_out "/out/" "dev/null"
              {| Mode := FileMode.ModeDevice; Size := 0; ModTime := None |}
              (Examples.content "") (Examples.with_out "")
              eq_refl eq_refl eq_refl) as ((e & _ & _ & He & Hloop) & _).
  specialize (He eq_refl). subst e.
  apply (Hloop 2) with
    (r' := TarReader
             {| entries := [Examples.an_entry "after.txt" (octal [6; 4; 4]) 2 "hi"];
                final := EOF |}).
  reflexivity.
Defined.





(** * Cleaned paths *)

Module PathFacts.
Import GoStrings Filepath.

Lemma Split_not_nil (s : string) (sep : ascii) : Split s sep <> [].
Proof.
  destruct s as [|c s]; simpl; [discriminate|].
  destruct (Ascii.eqb c sep); [discriminate|].
  destruct (Split s sep); discriminate.
Qed.

Lemma Split_no_sep (s : string) (sep : ascii) :
  Forall (fun e => ContainsRune e sep = false) (Split s sep).
Proof.
  induction s as [|c s IH]; simpl.
  - repeat constructor.
  - destruct (Ascii.eqb c sep) eqn:E.
    + constructor; [reflexivity | exact IH].
    + destruct (Split s sep) as [|f fs].
      * repeat constructor. simpl. now rewrite E.
      * inversion IH as [|? ? Hf Hfs]; subst. constructor; [|exact Hfs].
        simpl. now rewrite E.
Qed.

(** Splitting distributes over a separator in the middle. *)
Lemma Split_app_sep (a b : string) (sep : ascii) :
  Split (a ++ String sep b) sep = Split a sep ++ Split b sep.
Proof.
  induction a as [|c a IH]; simpl.
  - now rewrite Ascii.eqb_refl.
  - rewrite IH. destruct (Ascii.eqb c sep); [reflexivity|].
    pose proof (Split_not_nil a sep) as N.
    destruct (Split a sep); [contradiction | reflexivity].
Qed.

Lemma Split_one (e : string) (sep : ascii) :
  ContainsRune e sep = false -> Split e sep = [e].
Proof.
  induction e as [|c e IH]; simpl; [reflexivity|].
  intros H. apply orb_false_iff in H as [Hc He].
  rewrite Hc, (IH He). reflexivity.
Qed.

Lemma Split_concat (es : list string) :
  Forall (fun e => ContainsRune e Separator = false) es -> es <> [] ->
  Split (String.concat "/" es) Separator = es.
Proof.
  induction es as [|e es IH]; intros F N; [contradiction|].
  inversion F as [|? ? He Hes]; subst.
  destruct es as [|e' es].
  - simpl. now apply Split_one.
  - change (String.concat "/" (e :: e' :: es))
      with (e ++ String Separator (String.concat "/" (e' :: es)))%string.
    rewrite Split_app_sep, (Split_one e _ He), IH by (assumption || discriminate).
    reflexivity.
Qed.

Lemma is_name_no_sep (e : string) :
  is_name e = true -> ContainsRune e Separator = false.
Proof.
  unfold is_name. intros H. apply andb_true_iff in H as [_ H].
  now apply negb_true_iff in H.
Qed.

(** On a rooted path the scan of [Clean] keeps names only. *)
Lemma clean_step_names (out : list string) (e : string) :
  Forall (fun x => is_name x = true) out ->
  ContainsRune e Separator = false ->
  Forall (fun x => is_name x = true) (clean_step true out e).
Proof.
  intros F He. unfold clean_step.
  destruct (String.eqb e "" || String.eqb e ".") eqn:E1; [exact F|].
  destruct (String.eqb e "..") eqn:E2.
  - destruct out as [|top out']; [constructor|].
    inversion F as [|? ? Ht Ho]; subst.
    destruct (String.eqb top "..") eqn:E3; [|exact Ho].
    exfalso. unfold is_name in Ht. rewrite E3 in Ht.
    now rewrite !orb_true_r in Ht.
  - constructor; [|exact F]. unfold is_name.
    apply orb_false_iff in E1 as [Ea Eb]. now rewrite Ea, Eb, E2, He.
Qed.

Lemma fold_clean_step_names (elems out : list string) :
  Forall (fun x => is_name x = true) out ->
  Forall (fun e => ContainsRune e Separator = false) elems ->
  Forall (fun x => is_name x = true) (fold_left (clean_step true) elems out).
Proof.
  revert out; induction elems as [|e elems IH]; intros out Fo Fe; simpl;
    [exact Fo|].
  inversion Fe; subst. apply IH; [now apply clean_step_names | assumption].
Qed.

Lemma clean_elems_names (path : string) :
  Forall (fun x => is_name x = true) (clean_elems true (Split path Separator)).
Proof.
  unfold clean_elems. apply Forall_rev.
  apply fold_clean_step_names; [constructor | apply Split_no_sep].
Qed.

Lemma Clean_rooted (path : string) :
  IsAbs path = true ->
  Clean path = ("/" ++ String.concat "/" (clean_elems true (Split path Separator)))%string.
Proof.
  intros H. unfold Clean. rewrite H.
  destruct path; [discriminate H | reflexivity].
Qed.

Lemma names_filter (es : list string) :
  Forall (fun x => is_name x = true) es ->
  filter (fun e => negb (String.eqb e "" || String.eqb e ".")) es = es.
Proof.
  induction 1 as [|e es He _ IH]; simpl; [reflexivity|].
  rewrite IH. unfold is_name in He.
  apply andb_true_iff in He as [He _]. apply negb_true_iff in He.
  apply orb_false_iff in He as [He _]. now rewrite He.
Qed.

(** The elements of a rooted path made of names are those names. *)
Lemma path_elems_rooted (es : list string) :
  Forall (fun x => is_name x = true) es ->
  OS.path_elems ("/" ++ String.concat "/" es) = es.
Proof.
  intros F. unfold OS.path_elems.
  change (Split ("/" ++ String.concat "/" es) Separator)
    with (EmptyString :: Split (String.concat "/" es) Separator).
  cbn [filter String.eqb orb negb].
  destruct es as [|e es'] eqn:Ees; [reflexivity|]. rewrite <- Ees in *.
  rewrite Split_concat.
  - now apply names_filter.
  - eapply Forall_impl; [|exact F]. apply is_name_no_sep.
  - subst es. discriminate.
Qed.

(** Lexical containment.  When a cleaned rooted path has a cleaned rooted
    directory and a separator as a prefix, its elements are those of the
    directory followed by at least one name; none of them is [..]. *)
Lemma cleaned_prefix (p d : string) :
  IsAbs p = true -> IsAbs d = true ->
  HasPrefix (Clean p) (Clean d ++ "/") = true ->
  exists rest elems,
    Clean p = (Clean d ++ "/" ++ rest)%string /\ rest <> ""%string /\
    OS.path_elems (Clean p) = OS.path_elems (Clean d) ++ elems /\
    elems <> [] /\ Forall (fun x => is_name x = true) elems.
Proof.
  intros Hp Hd H.
  apply GoStringsFacts.HasPrefix_append in H as [t Ht].
  pose proof (clean_elems_names p) as Fp.
  pose proof (clean_elems_names d) as Fd.
  rewrite (Clean_rooted p Hp), (Clean_rooted d Hd) in *.
  set (Pe := clean_elems true (Split p Separator)) in *.
  set (De := clean_elems true (Split d Separator)) in *.
  rewrite !path_elems_rooted by assumption.
  assert (E : String.concat "/" Pe
              = (String.concat "/" De ++ String Separator t)%string).
  { rewrite GoStringsFacts.string_app_assoc in Ht. cbn [String.append] in Ht.
    injection Ht as Ht. exact Ht. }
  apply (f_equal (fun s => Split s Separator)) in E.
  rewrite Split_app_sep in E.
  assert (NoSep : forall l, Forall (fun x => is_name x = true) l ->
                            Forall (fun e => ContainsRune e Separator = false) l)
    by (intros l F; eapply Forall_impl; [|exact F]; apply is_name_no_sep).
  assert (HPe : Pe = De ++ Split t Separator /\ De <> []).
  { destruct De as [|d0 De'].
    - exfalso. cbn [String.concat Split app] in E.
      destruct Pe as [|p0 Pe'].
      + cbn in E. injection E as E. symmetry in E.
        now apply Split_not_nil in E.
      + rewrite Split_concat in E by (auto || discriminate).
        injection E as E _. inversion Fp; subst. discriminate.
    - rewrite (Split_concat (d0 :: De')) in E by (auto || discriminate).
      destruct Pe as [|p0 Pe'].
      + exfalso. cbn in E. injection E as _ E. destruct De'.
        * symmetry in E. now apply Split_not_nil in E.
        * discriminate.
      + rewrite Split_concat in E by (auto || discriminate).
        split; [exact E | discriminate]. }
  destruct HPe as [HPe HDe].
  assert (Ft : Forall (fun x => is_name x = true) (Split t Separator)).
  { rewrite HPe in Fp. now apply Forall_app in Fp. }
  exists t, (Split t Separator). repeat split.
  - rewrite Ht. now rewrite !GoStringsFacts.string_app_assoc.
  - intros ->. cbn in Ft. inversion Ft; subst. discriminate.
  - exact HPe.
  - apply Split_not_nil.
  - exact Ft.
Qed.

End PathFacts.

(** * Containment of the extracted paths *)

Module ContainmentFacts.
Import GoStrings Filepath PathFacts.

(** The absolute form of a path is a cleaned rooted path. *)
Lemma Abs_rooted (wd d : string) :
  IsAbs wd = true -> exists q, IsAbs q = true /\ Abs wd d = Clean q.
Proof.
  intros Hwd. unfold Abs. destruct (IsAbs d) eqn:Hd.
  - now exists d.
  - exists (String.concat "/" [wd; d]). split.
    + destruct wd as [|c w]; [discriminate Hwd|]. exact Hwd.
    + cbn [Join]. destruct wd as [|c w]; [discriminate Hwd | reflexivity].
Qed.

Lemma entry_path_rooted (q name : string) :
  IsAbs q = true ->
  exists p, IsAbs p = true /\
            Fetch.entry_path (Clean q ++ "/") name = Clean p.
Proof.
  intros Hq. exists (String.concat "/" [(Clean q ++ "/")%string; name]).
  rewrite (Clean_rooted q Hq). split; reflexivity.
Qed.

(** A path that passed the check of [unarchive] is lexically inside the
    destination directory. *)
Lemma checked_path_inside (wd d name : string) :
  IsAbs wd = true ->
  let dest := Abs wd d in
  let dir := (dest ++ "/")%string in
  HasPrefix (Fetch.entry_path dir name) dir = true ->
  exists rest elems,
    Fetch.entry_path dir name = (dir ++ rest)%string /\ rest <> ""%string /\
    OS.path_elems (Fetch.entry_path dir name) = OS.path_elems dest ++ elems /\
    elems <> [] /\ Forall (fun x => is_name x = true) elems.
Proof.
  intros Hwd dest dir H. subst dir dest.
  destruct (Abs_rooted wd d Hwd) as (q & Hq & Ea). rewrite Ea in *.
  destruct (entry_path_rooted q name Hq) as (p & Hp & E).
  rewrite E in *.
  destruct (cleaned_prefix p q Hp Hq H) as (rest & elems & H1 & H2 & H3 & H4 & H5).
  exists rest, elems. repeat split; try assumption.
  now rewrite GoStringsFacts.string_app_assoc.
Qed.

End ContainmentFacts.

(** The scenario of the specification, extracted into an empty tree. *)
Example scenario_run :
  Fetch.unarchive Examples.to_out (TarReader Examples.scenario) "/out/"
    (Examples.fresh "")
  = (Ok tt,
     {| targetName := "";
        fs := [(["out"; "link"]%string, OS.NLink "a/file.txt");
               (["out"; "a"; "file.txt"]%string,
                OS.NFile (octal [6; 4; 4]) (Bytes.of_string "hi") None);
               (["out"; "a"; "file.txt"]%string, OS.NFile (octal [6; 4; 4]) [] None);
               (["out"; "a"]%string, OS.NDir (octal [7; 5; 5]));
               (["out"]%string, OS.NDir (octal [7; 5; 5]))];
        stdout_data := [];
        calls := [CMkdirAll "/out/" (octal [7; 7; 7]);
                  CMkdirAll "/out/a"
                    (Z.lor FileMode.ModeDir (octal [7; 5; 5]));
                  COpenFile "/out/a/file.txt" (octal [6; 4; 4]);
                  CSymlink "a/file.txt" "/out/link"] |}).
Proof. vm_compute. reflexivity. Qed.

(** The run of the archive that writes through its own link. *)
Lemma through_link_run :
  Fetch.unarchive Examples.to_out (TarReader Examples.through_link) "/out/"
    Examples.with_out_etc
  = (Ok tt,
     {| targetName := "";
        fs := [(["etc"; "passwd"]%string,
                OS.NFile (octal [6; 4; 4]) (Bytes.of_string "hi") None);
               (["etc"; "passwd"]%string, OS.NFile (octal [6; 4; 4]) [] None);
               (["out"; "conf"]%string, OS.NLink "/etc");
               (["out"]%string, OS.NDir (octal [7; 5; 5]));
               (["etc"]%string, OS.NDir (octal [7; 5; 5]))];
        stdout_data := [];
        calls := [CMkdirAll "/out/" (octal [7; 7; 7]);
                  CSymlink "/etc" "/out/conf";
                  COpenFile "/out/conf/passwd" (octal [6; 4; 4])] |}).
Proof. vm_compute. reflexivity. Qed.

(** C1, as the specification states it, fails in its last part: an archive
    that holds a link to [/etc] and then a file named through that link
    passes the check for both entries, and the file is created at
    [/etc/passwd], outside the destination [/out]. *)
Lemma C1_file_created_outside :
  ~ (forall (cfg : config) (r : reader) (d : string) (st st' : state)
            (res : result unit) (p : OS.ppath),
       Filepath.IsAbs (wd cfg) = true ->
       Fetch.unarchive cfg r d st = (res, st') ->
       Spec.created (fs st) (fs st') p ->
       Spec.outside (OS.path_elems (Filepath.Abs (wd cfg) d)) p = false).
Proof.
  intros H.
  specialize (H Examples.to_out (TarReader Examples.through_link) "/out/"%string
                Examples.with_out_etc _ _ ["etc"; "passwd"]%string
                eq_refl through_link_run).
  assert (C : Spec.created (fs Examples.with_out_etc)
                (fs (snd (Fetch.unarchive Examples.to_out
                            (TarReader Examples.through_link) "/out/"
                            Examples.with_out_etc)))
                ["etc"; "passwd"]%string).
  { rewrite through_link_run. split; [reflexivity | discriminate]. }
  rewrite through_link_run in C. specialize (H C). discriminate H.
Qed.

(** C1, amended.  [unarchive] makes the destination absolute, appends the
    separator, creates that directory, and for every entry joins the
    directory with the name; an entry whose joined path does not have the
    directory as a prefix ends the loop with the illegal-file-path error
    before any call is made for it, the state left as it was.  Every path
    given to a call of package [os] for an entry is therefore lexically
    inside the destination: it is the directory followed by a non-empty
    rest, and its elements are the elements of the destination followed by
    at least one name, none of them [..].  The check is lexical: links are
    not resolved. *)
Theorem C1_lexical_containment (cfg : config) (r : reader) (d : string)
  (st st' : state) (res : result unit) :
  Filepath.IsAbs (wd cfg) = true ->
  Fetch.unarchive cfg r d st = (res, st') ->
  let dest := Filepath.Abs (wd cfg) d in
  let dir := (dest ++ "/")%string in
  res <> OutOfFuel /\
  (forall fuel r0 r1 name fi body s,
     Fetch.unarchiveNext r0 = (Ok (inr (name, fi, body)), r1) ->
     GoStrings.HasPrefix (Filepath.Join [dir; name]) dir = false ->
     Fetch.unarchive_loop cfg (S fuel) r0 dir s = (Fatal (IllegalFilePath name), s)) /\
  (forall mk pre e post fin,
     mk = TarReader \/ mk = ZipReader ->
     r = mk {| entries := pre ++ e :: post; final := fin |} ->
     GoStrings.HasPrefix (Filepath.Join [dir; Name e]) dir = false ->
     exists err, res = Fatal err) /\
  exists cs,
    calls st' = calls st ++ CMkdirAll dir (octal [7; 7; 7]) :: cs /\
    Forall (fun c =>
              exists name rest elems,
                call_path c = Filepath.Join [dir; name] /\
                call_path c = (dir ++ rest)%string /\ rest <> ""%string /\
                OS.path_elems (call_path c) = OS.path_elems dest ++ elems /\
                elems <> [] /\
                Forall (fun x => Filepath.is_name x = true) elems) cs.
Proof.
  intros Hwd Hrun dest dir. split; [|split; [|split]].
  - revert Hrun. unfold Fetch.unarchive, bind, os_MkdirAll, os_call, fail.
    cbn [fs add_call].
    destruct (OS.MkdirAll _ _ _ _ _) as [e|fs1].
    + intros E; injection E as <- _. discriminate.
    + intros E.
      pose proof (ExtractFacts.loop_returns cfg dir (S (Fetch.remaining r)) r
                    (set_fs fs1 (add_call (CMkdirAll dir (octal [7; 7; 7])) st))
                    (Nat.lt_succ_diag_r _)) as N.
      fold dest in E. fold dir in E. rewrite E in N. exact N.
  - intros fuel r0 r1 name fi body s N Hc. cbn [Fetch.unarchive_loop].
    rewrite N. unfold bind.
    now rewrite (ExtractFacts.entry_illegal cfg dir name fi body s Hc).
  - intros mk pre e post fin Hmk -> Hc.
    destruct (ExtractFacts.unarchive_stops cfg mk d e pre post fin st Hmk)
      as (err & st1 & E).
    + intros s. exists (IllegalFilePath (Name e)).
      now apply ExtractFacts.entry_illegal.
    + rewrite E in Hrun. injection Hrun as <- _. eauto.
  - revert Hrun. unfold Fetch.unarchive, bind, os_MkdirAll, os_call, fail.
    cbn [fs add_call]. fold dest. fold dir.
    destruct (OS.MkdirAll _ _ _ _ _) as [e|fs1].
    + intros E; injection E as _ <-. exists []. split; [reflexivity | constructor].
    + intros E. apply ExtractFacts.loop_calls in E as (cs & Hc & F).
      exists cs. split.
      * rewrite Hc. cbn [calls set_fs add_call]. now rewrite <- app_assoc.
      * eapply Forall_impl; [|exact F]. cbv beta.
        intros c (name & Hp & Hpre).
        destruct (ContainmentFacts.checked_path_inside (wd cfg) d name Hwd Hpre)
          as (rest & elems & H1 & H2 & H3 & H4 & H5).
        exists name, rest, elems. rewrite Hp. repeat split; assumption.
Qed.

Lemma C1_lexical_containment_witness :
  Fetch.unarchive_loop Examples.to_out 2 (TarReader Examples.dotdot_entry)
    "/out/" (Examples.with_out "")
  = (Fatal (IllegalFilePath "../escape.txt"), Examples.with_out "").
Proof.
  refine (proj1 (proj2
    (C1_lexical_containment Examples.to_out (TarReader Examples.dotdot_entry)
       "/out/" (Examples.with_out "")
       (snd (Fetch.unarchive Examples.to_out (TarReader Examples.dotdot_entry)
               "/out/" (Examples.with_out "")))
       (fst (Fetch.unarchive Examples.to_out (TarReader Examples.dotdot_entry)
               "/out/" (Examples.with_out "")))
       eq_refl _))
    1 (TarReader Examples.dotdot_entry)
    (TarReader {| entries := []; final := EOF |})
    "../escape.txt"%string
    {| Mode := octal [6; 4; 4]; Size := 2; ModTime := None |}
    {| data := Bytes.of_string "hi"; ending := None |}
    (Examples.with_out "") eq_refl _).
  - apply surjective_pairing.
  - vm_compute. reflexivity.
Defined.

(** * The inferred name *)

Section NameClaims.
Variable cfg : config.




End NameClaims.



(** * The target of a plain stream *)

(** The revision in [src/main.go] checks the inferred name the way
    [unarchive] checks an entry: a name whose join with the target does
    not have the target and a separator as a prefix ends the run with the
    illegal-file-path error before any call is made. *)
Lemma Earlier_targetFile_contained (cfg : config) (st : state) :
  stdout cfg = false -> targetIsDir cfg = true ->
  GoStrings.HasPrefix (Filepath.Join [Earlier.abs_target cfg; targetName st])
                      (Earlier.abs_target cfg ++ "/") = false ->
  Earlier.targetFile cfg st = (Fatal (IllegalFilePath (targetName st)), st).
Proof.
  intros Ho Hd H. unfold Earlier.targetFile, bind, get, fail.
  rewrite Ho, Hd. now rewrite H.
Qed.

Example Earlier_targetFile_dotdot :
  Earlier.targetFile Examples.to_new_dir (Examples.fresh "..")
  = (Fatal (IllegalFilePath ".."), Examples.fresh "..").
Proof. reflexivity. Qed.

(** The newest revision rejects a name that holds a separator and accepts
    every other name. *)
Lemma targetFile_separator (cfg : config) (st : state) :
  stdout cfg = false -> targetIsDir cfg = true ->
  GoStrings.ContainsRune (targetName st) Filepath.Separator = true ->
  Fetch.targetFile cfg st = (Fatal (IllegalFilePath (targetName st)), st).
Proof.
  intros Ho Hd H. unfold Fetch.targetFile, bind, get, fail.
  rewrite Ho, Hd. unfold Filepath.FromSlash. now rewrite H.
Qed.

(** C9 fails on the newest revision.  With the destination directory
    [/out/dir/] and the inferred name [..], the join is [/out], outside the
    destination; [targetFile] reports no illegal file path, and on a tree
    where [/out] does not exist it creates the regular file [/out]. *)
Theorem C9_targetFile_dotdot_escapes :
  Filepath.Join ["/out/dir/"; ".."]%string = "/out"%string /\
  GoStrings.HasPrefix (Filepath.Join ["/out/dir/"; ".."]%string) "/out/dir/" = false /\
  Fetch.targetFile Examples.to_new_dir (Examples.fresh "..")
  = (Ok (File ["out"%string]),
     {| targetName := "..";
        fs := [(["out"%string], OS.NFile (octal [6; 4; 4]) [] None)];
        stdout_data := [];
        calls := [CMkdirAll "/" (octal [7; 7; 7]);
                  COpenFile "/out" (octal [6; 6; 6])] |}).
Proof. repeat split; vm_compute; reflexivity. Qed.

(** The same through [uncompress]: the name comes from the header of a gzip
    stream, and the decompressed bytes go to the file [/out]. *)
Example gzip_name_dotdot_run :
  Fetch.uncompress Examples.to_new_dir Examples.gunzip_dotdot (fun r => r)
    Examples.no_archive Examples.no_archive 2 Examples.gzipped
    (Examples.fresh "data.gz")
  = (Ok tt,
     {| targetName := "..";
        fs := [(["out"%string],
                OS.NFile (octal [6; 4; 4]) (Bytes.of_string "plain") None);
               (["out"%string], OS.NFile (octal [6; 4; 4]) [] None)];
        stdout_data := [];
        calls := [CMkdirAll "/" (octal [7; 7; 7]);
                  COpenFile "/out" (octal [6; 6; 6])] |}).
Proof. vm_compute. reflexivity. Qed.

(** * The recursion of [uncompress] *)

Section Recursion.
Variable cfg : config.
Variable gz : stream -> error + string * stream.
Variable bz : stream -> stream.
Variables zp tr : stream -> archive.

Lemma unarchive_returns (r : reader) (d : string) (st : state) :
  fst (Fetch.unarchive cfg r d st) <> OutOfFuel.
Proof.
  unfold Fetch.unarchive, bind, os_MkdirAll, os_call, fail. cbn [fs add_call].
  destruct (OS.MkdirAll _ _ _ _ _) as [e|fs1]; [discriminate|].
  apply ExtractFacts.loop_returns. apply Nat.lt_succ_diag_r.
Qed.

Lemma targetFile_returns (st : state) :
  fst (Fetch.targetFile cfg st) <> OutOfFuel.
Proof.
  unfold Fetch.targetFile, bind, ret, fail, get, os_MkdirAll, os_OpenFile, os_call.
  destruct (stdout cfg); [discriminate|].
  destruct (targetIsDir cfg).
  - destruct (GoStrings.ContainsRune _ _); [discriminate|].
    cbn [fs add_call].
    destruct (OS.MkdirAll _ _ _ _ _); [discriminate|]. cbn [fs set_fs add_call].
    destruct (OS.OpenFile _ _ _ _ _) as [e|[fs' h]]; discriminate.
  - cbn [fs add_call].
    destruct (OS.MkdirAll _ _ _ _ _); [discriminate|]. cbn [fs set_fs add_call].
    destruct (OS.OpenFile _ _ _ _ _) as [e|[fs' h]]; discriminate.
Qed.

(** The zip, tar and opaque cases make no recursive call: one unit of fuel
    is enough for them. *)
Lemma terminal_cases_return (r : stream) (st : state) (fuel : nat) :
  Fetch.uncompress_case cfg (firstn 264 (data r)) <> Some Fetch.Gzip ->
  Fetch.uncompress_case cfg (firstn 264 (data r)) <> Some Fetch.Bzip2 ->
  fst (Fetch.uncompress cfg gz bz zp tr (S fuel) r st) <> OutOfFuel.
Proof.
  intros Hg Hb. rewrite uncompress_unfold.
  destruct (Fetch.uncompress_case cfg (firstn 264 (data r))) as [[| | | |]|];
    try contradiction.
  - apply unarchive_returns.
  - apply unarchive_returns.
  - unfold bind. pose proof (targetFile_returns st) as T.
    destruct (Fetch.targetFile cfg st) as [[f| | |] st1]; try discriminate.
    + unfold Fetch.write, io_Copy, Close, bind, ret, fail. cbn [snd].
      destruct (ending r); discriminate.
    + now cbn in T.
  - discriminate.
Qed.


(** Whether the fuel runs out does not depend on the state. *)
Lemma out_of_fuel_any_state (fuel : nat) :
  forall (r : stream) (st st' : state),
    fst (Fetch.uncompress cfg gz bz zp tr fuel r st) = OutOfFuel ->
    fst (Fetch.uncompress cfg gz bz zp tr fuel r st') = OutOfFuel.
Proof.
  induction fuel as [|fuel IH]; intros r st st' H; [reflexivity|].
  destruct (Fetch.uncompress_case cfg (firstn 264 (data r)))
    as [[| | | |]|] eqn:C;
    try (exfalso; revert H; apply terminal_cases_return; rewrite C; discriminate).
  - rewrite uncompress_unfold, C in *.
    destruct (gz r) as [err|[name zr]]; [discriminate H|].
    unfold bind, get, modify in *. eapply IH. exact H.
  - rewrite uncompress_unfold, C in *.
    unfold bind, get, modify in *. eapply IH. exact H.
Qed.



End Recursion.






(** * The revision in [src/main.go], entry by entry

    Where the two revisions differ on what the claims above say. *)

Section EarlierEntries.
Variable cfg : config.

(** It has the same containment check. *)
Lemma Earlier_entry_illegal (name : string) (fi : FileInfo) (a : stream) (st : state) :
  GoStrings.HasPrefix (Filepath.Join [Earlier.abs_target cfg; name])
                      (Earlier.abs_target cfg ++ "/") = false ->
  Earlier.unarchive_entry cfg name fi a st = (Fatal (IllegalFilePath name), st).
Proof. intros H. unfold Earlier.unarchive_entry. now rewrite H. Qed.

(** Its [switch] has no [default] case: an entry that is neither a
    directory, a regular file nor a link is passed over. *)
Lemma Earlier_unsupported_skipped (name : string) (fi : FileInfo) (a : stream)
  (st : state) :
  GoStrings.HasPrefix (Filepath.Join [Earlier.abs_target cfg; name])
                      (Earlier.abs_target cfg ++ "/") = true ->
  FileMode.IsDir (Mode fi) = false ->
  FileMode.IsRegular (Mode fi) = false ->
  Z.land (Mode fi) FileMode.ModeSymlink = 0%Z ->
  Earlier.unarchive_entry cfg name fi a st = (Ok tt, st).
Proof.
  intros H D R L. unfold Earlier.unarchive_entry. now rewrite H, D, R, L.
Qed.

(** It does not look at the declared size. *)
Lemma Earlier_size_unused (name : string) (mode size size' : Z)
  (time : option Z) (a : stream) (st : state) :
  Earlier.unarchive_entry cfg name
    {| Mode := mode; Size := size; ModTime := time |} a st
  = Earlier.unarchive_entry cfg name
      {| Mode := mode; Size := size'; ModTime := time |} a st.
Proof. reflexivity. Qed.

End EarlierEntries.

(** * More on [unarchivePerm] *)

Module PermMore.

(** The bits [unarchivePerm] may add. *)
Lemma unarchivePerm_adds (mode : Z) :
  exists k, Fetch.unarchivePerm mode = Z.lor mode k /\
            Z.ldiff k (octal [0; 3; 1; 1]) = 0%Z /\
            Z.land k (octal [0; 3; 0; 0]) = octal [0; 3; 0; 0] /\
            Z.land k (octal [0; 0; 1; 0])
            = (if Z.eqb (Z.land mode (octal [0; 0; 6; 0])) 0 then 0%Z else octal [0; 0; 1; 0]) /\
            Z.land k (octal [0; 0; 0; 1])
            = (if Z.eqb (Z.land mode (octal [0; 0; 0; 6])) 0 then 0%Z else octal [0; 0; 0; 1]).
Proof.
  rewrite PermFacts.unarchivePerm_directory_mode. unfold Spec.directory_mode.
  eexists. split; [reflexivity|].
  destruct (Z.eqb (Z.land mode (octal [0; 0; 6; 0])) 0),
           (Z.eqb (Z.land mode (octal [0; 0; 0; 6])) 0); repeat split.
Qed.

Lemma land_lor_same (a b : Z) : Z.land a (Z.lor a b) = a.
Proof.
  apply Z.bits_inj'. intros n _. rewrite Z.land_spec, Z.lor_spec.
  now destruct (Z.testbit a n), (Z.testbit b n).
Qed.

Lemma lor_land_same (a c : Z) : Z.lor (Z.land a c) c = c.
Proof.
  apply Z.bits_inj'. intros n _. rewrite Z.lor_spec, Z.land_spec.
  now destruct (Z.testbit a n), (Z.testbit c n).
Qed.

End PermMore.

(** X1.  [unarchivePerm] is idempotent: applying it to a mode it has
    produced changes nothing. *)
Theorem X1_unarchivePerm_idempotent (mode : Z) :
  Fetch.unarchivePerm (Fetch.unarchivePerm mode) = Fetch.unarchivePerm mode.
Proof.
  rewrite (PermFacts.unarchivePerm_directory_mode (Fetch.unarchivePerm mode)).
  destruct (PermMore.unarchivePerm_adds mode) as (k & E & Hk & Ho & Hg & Hx).
  rewrite E. unfold Spec.directory_mode.
  assert (D : forall c, Z.ldiff c (octal [0; 3; 1; 1]) = c ->
                        Z.land k c = 0%Z).
  { intros c <-. rewrite Z.ldiff_land, Z.land_assoc, (Z.land_comm k),
      <- Z.land_assoc, <- Z.ldiff_land, Hk. apply Z.land_0_r. }
  rewrite !Z.land_lor_distr_l, !D by reflexivity. rewrite !Z.lor_0_r.
  rewrite <- Hg, <- Hx, <- Ho.
  rewrite <- Z.lor_assoc. f_equal.
  apply Z.bits_inj'. intros n _.
  rewrite !Z.lor_spec, !Z.land_spec.
  now destruct (Z.testbit k n).
Qed.

(** X2.  [unarchivePerm] only adds bits, and only among owner write, owner
    execute, group execute and other execute (octal 0311): no bit of the
    mode is cleared, and every other bit, the file-type bits among them,
    is as it was; the owner write and execute bits are always set in the
    result. *)
Theorem X2_unarchivePerm_bits (mode : Z) :
  Z.land mode (Fetch.unarchivePerm mode) = mode /\
  Z.ldiff (Fetch.unarchivePerm mode) (octal [0; 3; 1; 1])
  = Z.ldiff mode (octal [0; 3; 1; 1]) /\
  Z.land (Fetch.unarchivePerm mode) (octal [0; 3; 0; 0]) = octal [0; 3; 0; 0] /\
  FileMode.IsDir (Fetch.unarchivePerm mode) = FileMode.IsDir mode.
Proof.
  destruct (PermMore.unarchivePerm_adds mode) as (k & -> & Hk & Ho & _).
  assert (Hd : Z.ldiff (Z.lor mode k) (octal [0; 3; 1; 1])
               = Z.ldiff mode (octal [0; 3; 1; 1])).
  { rewrite !Z.ldiff_land, Z.land_lor_distr_l, <- (Z.ldiff_land k), Hk.
    apply Z.lor_0_r. }
  repeat split.
  - apply PermMore.land_lor_same.
  - exact Hd.
  - rewrite Z.land_lor_distr_l, Ho. apply PermMore.lor_land_same.
  - unfold FileMode.IsDir. f_equal. f_equal.
    replace FileMode.ModeDir
      with (Z.ldiff FileMode.ModeDir (octal [0; 3; 1; 1])) by reflexivity.
    rewrite !Z.ldiff_land, !Z.land_assoc, <- !Z.ldiff_land.
    rewrite !(Z.land_comm _ FileMode.ModeDir).
    rewrite !Z.ldiff_land, <- !Z.land_assoc, <- !Z.ldiff_land.
    now rewrite Hd.
Qed.

(** X3.  In the mode [unarchivePerm] gives, nobody who may read or write
    the directory is left without the right to search it: group execute is
    set whenever a group read or write bit is, other execute whenever an
    other read or write bit is; and these two bits are set only when they
    were set before or the class could read or write. *)
Theorem X3_unarchivePerm_searchable (mode : Z) :
  let r := Fetch.unarchivePerm mode in
  (Z.land r (octal [0; 0; 6; 0]) <> 0%Z ->
   Z.land r (octal [0; 0; 1; 0]) = octal [0; 0; 1; 0]) /\
  (Z.land r (octal [0; 0; 0; 6]) <> 0%Z ->
   Z.land r (octal [0; 0; 0; 1]) = octal [0; 0; 0; 1]) /\
  (Z.land r (octal [0; 0; 1; 0]) <> 0%Z ->
   Z.land mode (octal [0; 0; 7; 0]) <> 0%Z) /\
  (Z.land r (octal [0; 0; 0; 1]) <> 0%Z ->
   Z.land mode (octal [0; 0; 0; 7]) <> 0%Z).
Proof.
  cbv zeta.
  destruct (PermMore.unarchivePerm_adds mode) as (k & -> & Hk & _ & Hg & Ho).
  assert (K6 : Z.land k (octal [0; 0; 6; 0]) = 0%Z).
  { replace (octal [0; 0; 6; 0])
      with (Z.ldiff (octal [0; 0; 6; 0]) (octal [0; 3; 1; 1])) by reflexivity.
    rewrite Z.ldiff_land, (Z.land_comm (octal [0; 0; 6; 0])), Z.land_assoc,
      <- Z.ldiff_land, Hk. reflexivity. }
  assert (K0 : Z.land k (octal [0; 0; 0; 6]) = 0%Z).
  { replace (octal [0; 0; 0; 6])
      with (Z.ldiff (octal [0; 0; 0; 6]) (octal [0; 3; 1; 1])) by reflexivity.
    rewrite Z.ldiff_land, (Z.land_comm (octal [0; 0; 0; 6])), Z.land_assoc,
      <- Z.ldiff_land, Hk. reflexivity. }
  rewrite !Z.land_lor_distr_l, K6, K0, Hg, Ho, !Z.lor_0_r.
  repeat split.
  - intros H. destruct (Z.eqb_spec (Z.land mode (octal [0; 0; 6; 0])) 0);
      [contradiction|]. apply PermMore.lor_land_same.
  - intros H. destruct (Z.eqb_spec (Z.land mode (octal [0; 0; 0; 6])) 0);
      [contradiction|]. apply PermMore.lor_land_same.
  - intros H E. apply H.
    assert (E1 : Z.land mode (octal [0; 0; 1; 0]) = 0%Z).
    { replace (octal [0; 0; 1; 0])
        with (Z.land (octal [0; 0; 7; 0]) (octal [0; 0; 1; 0])) by reflexivity.
      now rewrite Z.land_assoc, E. }
    assert (E6 : Z.land mode (octal [0; 0; 6; 0]) = 0%Z).
    { replace (octal [0; 0; 6; 0])
        with (Z.land (octal [0; 0; 7; 0]) (octal [0; 0; 6; 0])) by reflexivity.
      now rewrite Z.land_assoc, E. }
    now rewrite E1, E6.
  - intros H E. apply H.
    assert (E1 : Z.land mode (octal [0; 0; 0; 1]) = 0%Z).
    { replace (octal [0; 0; 0; 1])
        with (Z.land (octal [0; 0; 0; 7]) (octal [0; 0; 0; 1])) by reflexivity.
      now rewrite Z.land_assoc, E. }
    assert (E6 : Z.land mode (octal [0; 0; 0; 6]) = 0%Z).
    { replace (octal [0; 0; 0; 6])
        with (Z.land (octal [0; 0; 0; 7]) (octal [0; 0; 0; 6])) by reflexivity.
      now rewrite Z.land_assoc, E. }
    now rewrite E1, E6.
Qed.

Lemma X3_unarchivePerm_searchable_witness :
  Z.land (Fetch.unarchivePerm (octal [0; 6; 4; 0])) (octal [0; 0; 1; 0])
  = octal [0; 0; 1; 0].
Proof.
  apply (proj1 (X3_unarchivePerm_searchable (octal [0; 6; 4; 0]))).
  vm_compute. discriminate.
Defined.

(** * What the pipeline never does *)

Module PipelineFacts.

Section Program.
Variable cfg : config.





End Program.

(** To standard output, nothing but standard output changes. *)
Lemma uncompress_stdout (cfg : config)
  (gz : stream -> error + string * stream) (bz : stream -> stream)
  (zp tr : stream -> archive) (fuel : nat) :
  stdout cfg = true ->
  forall (r : stream) (st : state),
    let st' := snd (Fetch.uncompress cfg gz bz zp tr fuel r st) in
    fs st' = fs st /\ calls st' = calls st /\
    exists written, stdout_data st' = stdout_data st ++ written.
Proof.
  intros Hout. induction fuel as [|fuel IH]; intros r st.
  - cbn. repeat split. exists []. now rewrite app_nil_r.
  - cbv zeta.
    rewrite uncompress_unfold, SnifferFacts.uncompress_case_window by lia.
    rewrite Hout.
    destruct (SnifferFacts.classify_stdout (data r)) as [E|[E|E]]; rewrite E.
    + destruct (gz r) as [err|[name zr]].
      * cbn. repeat split. exists []. now rewrite app_nil_r.
      * unfold bind, get, modify. cbn beta iota.
        apply (IH zr (set_targetName _ st)).
    + unfold bind, get, modify. cbn beta iota.
      apply (IH (bz r) (set_targetName _ st)).
    + unfold Fetch.targetFile. rewrite Hout.
      unfold bind, ret, Fetch.write, io_Copy, Close, fail. cbn [snd].
      destruct (ending r); cbn; repeat split; eauto.
Qed.

End PipelineFacts.


(** X5.  With standard output as the destination [uncompress] makes no
    call of package [os] and leaves the file tree as it was, whatever the
    stream holds and however many layers it has; all it does to the state
    is append to standard output and set the inferred name. *)
Theorem X5_uncompress_stdout_touches_no_file (cfg : config)
  (gz : stream -> error + string * stream) (bz : stream -> stream)
  (zp tr : stream -> archive) (fuel : nat) :
  stdout cfg = true ->
  forall (r : stream) (st : state),
    let st' := snd (Fetch.uncompress cfg gz bz zp tr fuel r st) in
    fs st' = fs st /\ calls st' = calls st /\
    exists written, stdout_data st' = stdout_data st ++ written.
Proof. exact (PipelineFacts.uncompress_stdout cfg gz bz zp tr fuel). Qed.

Lemma X5_uncompress_stdout_touches_no_file_witness :
  calls (snd (Fetch.uncompress Examples.to_stdout Examples.gunzip_plain
                (fun r => r) Examples.no_archive Examples.no_archive 3
                Examples.gzipped (Examples.with_out_etc)))
  = calls Examples.with_out_etc.
Proof.
  exact (proj1 (proj2
    (X5_uncompress_stdout_touches_no_file Examples.to_stdout
       Examples.gunzip_plain (fun r => r) Examples.no_archive
       Examples.no_archive 3 eq_refl Examples.gzipped Examples.with_out_etc))).
Defined.

(** * The loop of [unarchive], entry after entry *)

Module LoopFacts.
Section Program.
Variable cfg : config.

(** The entries of an archive are extracted in order, each from the state
    the one before left: the loop over [pre ++ rest] is the loop over
    [pre], and then, if that went well, the loop over [rest]. *)
Lemma loop_app (mk : archive -> reader) (dir : string) (rest : list entry)
  (fin : error) :
  mk = TarReader \/ mk = ZipReader ->
  forall (pre : list entry) (fuel0 fuel : nat) (st : state),
    List.length pre < fuel0 -> List.length pre < fuel ->
    match Fetch.unarchive_loop cfg fuel0
            (mk {| entries := pre; final := EOF |}) dir st with
    | (Ok tt, st1) =>
        Fetch.unarchive_loop cfg fuel
          (mk {| entries := pre ++ rest; final := fin |}) dir st
        = Fetch.unarchive_loop cfg (fuel - List.length pre)
            (mk {| entries := rest; final := fin |}) dir st1
    | (res, st1) =>
        Fetch.unarchive_loop cfg fuel
          (mk {| entries := pre ++ rest; final := fin |}) dir st
        = (res, st1)
    end.
Proof.
  intros Hmk pre. induction pre as [|e pre IH]; intros fuel0 fuel st H0 H.
  - destruct fuel0 as [|fuel0]; [lia|].
    assert (N : Fetch.unarchiveNext (mk {| entries := []; final := EOF |})
                = (Ok (inl EOF), mk {| entries := []; final := EOF |}))
      by (destruct Hmk as [-> | ->]; reflexivity).
    cbn [Fetch.unarchive_loop]. rewrite N. cbn [ret app List.length].
    now rewrite Nat.sub_0_r.
  - destruct fuel0 as [|fuel0]; [cbn in H0; lia|].
    destruct fuel as [|fuel]; [cbn in H; lia|].
    cbn [Fetch.unarchive_loop app].
    rewrite !(ExtractFacts.unarchiveNext_entry mk e _ _ Hmk). unfold bind.
    destruct (Fetch.unarchive_entry cfg dir (Name e) (Info e) (Body e) st)
      as [res1 st1] eqn:E1.
    destruct (ExtractFacts.entry_calls _ _ _ _ _ _ _ _ E1) as ([->|[err ->]] & _).
    + cbn [List.length Nat.sub]. apply IH; cbn in H0, H; lia.
    + reflexivity.
Qed.

(** An entry leaves the inferred name and standard output alone. *)
Lemma entry_keeps (dir name : string) (fi : FileInfo) (r : stream) (st : state) :
  let st' := snd (Fetch.unarchive_entry cfg dir name fi r st) in
  targetName st' = targetName st /\ stdout_data st' = stdout_data st.
Proof.
  cbv zeta. unfold Fetch.unarchive_entry.
  destruct (negb (GoStrings.HasPrefix _ _)); [now split|].
  destruct (FileMode.IsDir (Mode fi)).
  { unfold os_MkdirAll, os_call, bind, ret, fail. cbn [fs add_call].
    now destruct (OS.MkdirAll _ _ _ _ _). }
  destruct (FileMode.IsRegular (Mode fi)).
  { unfold os_OpenFile, io_Copy, Close, bind, ret, fail. cbn [fs add_call].
    destruct (OS.OpenFile _ _ _ _ _) as [e|[fs' h]]; [now split|].
    cbn [fs set_fs snd]. destruct (ending r); [now split|].
    destruct (negb _); [now split|].
    destruct (ModTime fi); [|now split].
    unfold os_Chtimes, os_call. cbn [fs add_call set_fs].
    now destruct (OS.Chtimes _ _ _ _). }
  destruct (negb _); [|now split].
  unfold ioutil_ReadAll. destruct (ending r); [now split|].
  unfold os_Symlink, os_call, bind, ret, fail. cbn [fs add_call].
  now destruct (OS.Symlink _ _ _ _).
Qed.

Lemma loop_keeps (dir : string) (fuel : nat) :
  forall (r : reader) (st : state),
    let st' := snd (Fetch.unarchive_loop cfg fuel r dir st) in
    targetName st' = targetName st /\ stdout_data st' = stdout_data st.
Proof.
  induction fuel as [|fuel IH]; intros r st; [now split|].
  cbv zeta. cbn [Fetch.unarchive_loop].
  destruct (Fetch.unarchiveNext r) as [[[err|[[name fi] body]]|e|msg|] r'];
    try (now split).
  - now destruct err.
  - unfold bind.
    pose proof (entry_keeps dir name fi body st) as K. cbv zeta in K.
    destruct (Fetch.unarchive_entry cfg dir name fi body st) as [[[]|e|msg|] st1];
      cbn [snd] in K; try exact K.
    destruct (IH r' st1) as [A B]. destruct K as [C D].
    split; congruence.
Qed.

End Program.
End LoopFacts.

(** X6.  [unarchive] extracts the entries in order and has no rollback.
    When the archive made of the first entries alone is extracted without
    error, the run on the whole archive is that run followed by the loop
    over the remaining entries from the state it left; in particular a
    reader error after the last entry is fatal, with everything extracted
    left in place.  When the first entries alone fail, the whole archive
    fails with the same error and the same final state: what comes after
    the failing entry is never looked at, and what was written before it
    stays. *)
Theorem X6_unarchive_in_order (cfg : config) (mk : archive -> reader)
  (d : string) (pre rest : list entry) (fin : error) (st : state) :
  mk = TarReader \/ mk = ZipReader ->
  let dir := (Filepath.Abs (wd cfg) d ++ "/")%string in
  match Fetch.unarchive cfg (mk {| entries := pre; final := EOF |}) d st with
  | (Ok tt, st1) =>
      Fetch.unarchive cfg (mk {| entries := pre ++ rest; final := fin |}) d st
      = Fetch.unarchive_loop cfg (S (List.length rest))
          (mk {| entries := rest; final := fin |}) dir st1 /\
      Fetch.unarchive cfg (mk {| entries := pre; final := fin |}) d st
      = (match fin with EOF => Ok tt | _ => Fatal fin end, st1)
  | (res, st1) =>
      Fetch.unarchive cfg (mk {| entries := pre ++ rest; final := fin |}) d st
      = (res, st1)
  end.
Proof.
  intros Hmk dir. unfold Fetch.unarchive, bind, os_MkdirAll, os_call, fail.
  cbn [fs add_call]. fold dir.
  destruct (OS.MkdirAll _ _ _ _ _) as [e|fs1]; [reflexivity|].
  set (st0 := set_fs fs1 _).
  assert (R : forall l f, Fetch.remaining (mk {| entries := l; final := f |})
                          = List.length l)
    by (intros; destruct Hmk as [-> | ->]; reflexivity).
  rewrite !R.
  pose proof (LoopFacts.loop_app cfg mk dir rest fin Hmk pre
                (S (List.length pre)) (S (List.length (pre ++ rest))) st0) as A.
  pose proof (LoopFacts.loop_app cfg mk dir [] fin Hmk pre
                (S (List.length pre)) (S (List.length pre)) st0) as B.
  rewrite app_nil_r in B.
  destruct (Fetch.unarchive_loop cfg (S (List.length pre))
              (mk {| entries := pre; final := EOF |}) dir st0) as [[[]|e|msg|] st1].
  - split.
    + rewrite A by (rewrite ?length_app; lia). f_equal.
      rewrite length_app. lia.
    + rewrite B by lia.
      replace (S (List.length pre) - List.length pre) with 1 by lia.
      cbn [Fetch.unarchive_loop].
      assert (N : Fetch.unarchiveNext (mk {| entries := []; final := fin |})
                  = (Ok (inl fin), mk {| entries := []; final := fin |}))
        by (destruct Hmk as [-> | ->]; reflexivity).
      rewrite N. now destruct fin.
  - apply A; rewrite ?length_app; lia.
  - apply A; rewrite ?length_app; lia.
  - apply A; rewrite ?length_app; lia.
Qed.

Lemma X6_unarchive_in_order_witness :
  Fetch.unarchive Examples.to_out
    (TarReader {| entries := entries Examples.dotdot_entry ++ entries Examples.scenario;
                  final := EOF |}) "/out/" (Examples.fresh "")
  = Fetch.unarchive Examples.to_out (TarReader Examples.dotdot_entry) "/out/"
      (Examples.fresh "").
Proof.
  pose proof (X6_unarchive_in_order Examples.to_out TarReader "/out/"
                (entries Examples.dotdot_entry) (entries Examples.scenario)
                EOF (Examples.fresh "") (or_introl eq_refl)) as H.
  cbv zeta in H.
  change (TarReader {| entries := entries Examples.dotdot_entry; final := EOF |})
    with (TarReader Examples.dotdot_entry) in H.
  destruct (Fetch.unarchive Examples.to_out (TarReader Examples.dotdot_entry)
              "/out/" (Examples.fresh "")) as [[[]|e|msg|] st1] eqn:E;
    try exact H.
  vm_compute in E. discriminate E.
Defined.

(** X7.  [unarchive] never writes to standard output and never changes the
    inferred name, whatever the archive holds and however the run ends. *)
Theorem X7_unarchive_keeps_name_and_stdout (cfg : config) (r : reader)
  (d : string) (st : state) :
  let st' := snd (Fetch.unarchive cfg r d st) in
  targetName st' = targetName st /\ stdout_data st' = stdout_data st.
Proof.
  cbv zeta. unfold Fetch.unarchive, bind, os_MkdirAll, os_call, fail.
  cbn [fs add_call].
  destruct (OS.MkdirAll _ _ _ _ _) as [e|fs1]; [now split|].
  exact (LoopFacts.loop_keeps cfg _ _ r (set_fs fs1 (add_call _ st))).
Qed.

(** * The plain writer *)

Module TreeFacts.
Import OS OSFacts.

Lemma same_kind_refl (a : option node) : Tree.same_kind a a.
Proof. destruct a as [[| |]|]; cbn; auto. Qed.

(** Resolution gives the same result on two trees whose nodes have the
    same kinds. *)
Lemma namei_same_kind (fs fs' : fsys) :
  (forall q, Tree.same_kind (lookup fs q) (lookup fs' q)) ->
  forall (fuel : nat) (cur : ppath) (elems : list string) (follow : bool),
    namei fuel fs cur elems follow = namei fuel fs' cur elems follow.
Proof.
  intros K fuel. induction fuel as [|fuel IH]; intros cur elems follow.
  - now destruct elems.
  - destruct elems as [|e rest]; [reflexivity|]. cbn [namei].
    destruct (String.eqb e ".."); [apply IH|].
    specialize (K (cur ++ [e])).
    destruct (lookup fs (cur ++ [e])) as [[| |t]|],
             (lookup fs' (cur ++ [e])) as [[| |t']|];
      cbn in K; try contradiction; try reflexivity; try apply IH.
    subst t'. destruct (is_nil rest && negb follow); [reflexivity | apply IH].
Qed.

(** Replacing a file by a file changes no kind. *)
Lemma rebind_file (fs : fsys) (p : ppath) (m m' : Z) (c c' : list byte)
  (t t' : option Z) :
  lookup fs p = Some (NFile m c t) ->
  forall q, Tree.same_kind (lookup fs q) (lookup ((p, NFile m' c' t') :: fs) q).
Proof.
  intros L q. rewrite lookup_insert.
  destruct (ppath_eqb p q) eqn:E.
  - apply ppath_eqb_eq in E. subst q. now rewrite L.
  - apply same_kind_refl.
Qed.

Section Process.
Variable wd : string.
Variable umask : Z.

Lemma resolve_same_kind (fs fs' : fsys) (path : string) (follow : bool) :
  (forall q, Tree.same_kind (lookup fs q) (lookup fs' q)) ->
  resolve wd fs path follow = resolve wd fs' path follow.
Proof.
  intros K. unfold resolve. destruct (String.eqb path ""); [reflexivity|].
  now apply namei_same_kind.
Qed.

(** The file [OpenFile] has opened is the empty file the path names. *)
Lemma OpenFile_Stat (fs fs2 : fsys) (path : string) (perm : Z) (h : ppath) :
  OpenFile wd umask fs path perm = inr (fs2, h) ->
  resolve wd fs2 path true = inr h /\
  exists m t, lookup fs2 h = Some (NFile m [] t) /\
              (lookup fs h = None -> m = created_mode umask perm).
Proof.
  unfold OpenFile.
  destruct (resolve wd fs path true) as [e|p] eqn:R; [discriminate|].
  destruct (lookup fs p) as [[m|m c t|tg]|] eqn:L; try discriminate;
    intros E; injection E as <- <-.
  - split.
    + rewrite <- R. symmetry. apply resolve_same_kind.
      now apply rebind_file with (m := m) (c := c) (t := t).
    + exists m, t. split; [apply lookup_insert_eq | congruence].
  - split.
    + now apply resolve_insert.
    + eexists; eexists. split; [apply lookup_insert_eq | reflexivity].
Qed.

(** After a write to the file a path names, [Stat] of the path finds the
    file with the bytes written after those it held. *)
Lemma Write_Stat (fs : fsys) (path : string) (h : ppath) (m : Z)
  (c data : list byte) (t : option Z) :
  resolve wd fs path true = inr h ->
  lookup fs h = Some (NFile m c t) ->
  Stat wd (Write fs h data) path = inr (NFile m (c ++ data) t).
Proof.
  intros R L. unfold Stat, Write. rewrite L.
  rewrite <- (resolve_same_kind fs _ path true
                (rebind_file fs h m m c (c ++ data) t t L)).
  now rewrite R, lookup_insert_eq.
Qed.

End Process.
End TreeFacts.

Section PlainWriter.
Variable cfg : config.

(** The plain writer on a file that has been opened. *)
Lemma write_to_file (r : stream) (h : OS.ppath) (st : state) :
  Fetch.write r (File h) st
  = (Ok (ending r), set_fs (OS.Write (fs st) h (data r)) st).
Proof.
  unfold Fetch.write, io_Copy, Close, bind, ret. cbn [snd].
  now destruct (ending r).
Qed.

End PlainWriter.

(** X8.  The plain writer to a file.  When the destination is not standard
    output and the file can be opened, [write(r, targetFile())] leaves at
    the path of the file (the target made absolute, joined first with the
    inferred name when the target is a directory) a regular file holding
    exactly the bytes of the stream, whatever the file held before; the run
    is fatal exactly when the stream ended with an error, and then the
    bytes read before the error are in the file.  Nothing is written to
    standard output, and the two calls made are the [MkdirAll] of the
    parent and the [OpenFile]. *)
Theorem X8_plain_writer_file (cfg : config) (r : stream) (st : state)
  (fs1 fs2 : OS.fsys) (h : OS.ppath) :
  stdout cfg = false ->
  (targetIsDir cfg = true ->
   GoStrings.ContainsRune (targetName st) Filepath.Separator = false) ->
  let path := Filepath.Abs (wd cfg)
                (if targetIsDir cfg
                 then Filepath.Join [target cfg; targetName st]
                 else target cfg) in
  OS.MkdirAll (wd cfg) (umask cfg) (fs st) (Filepath.Dir path) (octal [7; 7; 7])
  = inr fs1 ->
  OS.OpenFile (wd cfg) (umask cfg) fs1 path (octal [6; 6; 6]) = inr (fs2, h) ->
  exists st',
    Main.plain cfg r st
    = (match ending r with None => Ok tt | Some e => Fatal e end, st') /\
    (exists m t, OS.Stat (wd cfg) (fs st') path = inr (OS.NFile m (data r) t)) /\
    stdout_data st' = stdout_data st /\
    targetName st' = targetName st /\
    calls st' = calls st ++ [CMkdirAll (Filepath.Dir path) (octal [7; 7; 7]);
                             COpenFile path (octal [6; 6; 6])].
Proof.
  intros Ho Hn path Hm Hopen.
  destruct (TreeFacts.OpenFile_Stat _ _ _ _ _ _ _ Hopen) as (R & m & t & L & _).
  assert (E : Fetch.targetFile cfg st
              = (Ok (File h),
                 set_fs fs2 (add_call (COpenFile path (octal [6; 6; 6]))
                   (set_fs fs1 (add_call (CMkdirAll (Filepath.Dir path)
                                            (octal [7; 7; 7])) st))))).
  { unfold Fetch.targetFile, bind, ret, fail, get,
      os_MkdirAll, os_OpenFile, os_call, Filepath.FromSlash.
    rewrite Ho. subst path.
    destruct (targetIsDir cfg).
    - rewrite (Hn eq_refl). cbn [fs add_call]. rewrite Hm.
      cbn [fs set_fs add_call]. now rewrite Hopen.
    - cbn [fs add_call]. rewrite Hm.
      cbn [fs set_fs add_call]. now rewrite Hopen. }
  unfold Main.plain, bind. rewrite E, write_to_file. cbn [fs set_fs].
  eexists. split; [destruct (ending r); reflexivity|].
  cbn [fs set_fs stdout_data calls add_call targetName]. repeat split.
  - exists m, t. now rewrite (TreeFacts.Write_Stat _ _ _ _ m [] (data r) t R L).
  - now rewrite <- app_assoc.
Qed.

Lemma X8_plain_writer_file_witness :
  exists st' m t,
    Main.plain {| stdout := false; targetIsDir := true; target := "/out";
                  wd := "/home"; umask := octal [0; 2; 2] |}
               (Examples.content "payload") (Examples.with_out "a.bin")
    = (Ok tt, st') /\
    OS.Stat "/home" (fs st') "/out/a.bin"
    = inr (OS.NFile m (Bytes.of_string "payload") t).
Proof.
  destruct (X8_plain_writer_file
              {| stdout := false; targetIsDir := true; target := "/out";
                 wd := "/home"; umask := octal [0; 2; 2] |}
              (Examples.content "payload") (Examples.with_out "a.bin")
              (fs (Examples.with_out "a.bin"))
              ((["out"; "a.bin"]%string, OS.NFile (octal [6; 4; 4]) [] None)
                 :: fs (Examples.with_out "a.bin"))
              ["out"; "a.bin"]%string eq_refl)
    as (st' & E & (m & t & S) & _).
  - intros _. vm_compute. reflexivity.
  - vm_compute. reflexivity.
  - vm_compute. reflexivity.
  - exists st', m, t. split; [exact E | exact S].
Defined.

(** * [main]: the download and the inferred name *)

Module GoPathFacts.
Import GoStrings.





End GoPathFacts.

Section MainFacts.
Variable wd0 : string.
Variable umask0 : Z.
Variable http_Get : string -> error + response.
Variable mime_ParseMediaType :
  string -> string * option (list (string * string)) * option error.
Variable url_Parse_Path : string -> string.
Variable gzip_NewReader : stream -> error + string * stream.
Variable bzip2_NewReader : stream -> stream.
Variable zipstream_NewReader : stream -> archive.
Variable tar_NewReader : stream -> archive.

(** The name inferred when the header gives none. *)
Lemma inferName_no_header (source : string) (res : response) :
  (forall disp, let '(_, params, err) := mime_ParseMediaType disp in
                err <> None -> params = None) ->
  Main.inferName mime_ParseMediaType url_Parse_Path source res ""
  = if Nat.leb (String.length (GoPath.Ext (GoPath.Base (RequestURLPath res)))) 1
    then GoPath.Base (url_Parse_Path source)
    else GoPath.Base (RequestURLPath res).
Proof.
  intros Hm. unfold Main.inferName.
  assert (E : (if negb (String.eqb (ContentDisposition res) "")
               then let '(_, params, err) :=
                      mime_ParseMediaType (ContentDisposition res) in
                    match err with
                    | Some _ => Main.index_map params "filename"
                    | None => ""%string
                    end
               else ""%string) = ""%string).
  { destruct (negb _); [|reflexivity].
    specialize (Hm (ContentDisposition res)).
    destruct (mime_ParseMediaType (ContentDisposition res)) as [[mt params] err].
    destruct err as [e|]; [|reflexivity].
    rewrite Hm by discriminate. reflexivity. }
  rewrite E. reflexivity.
Qed.

End MainFacts.



(** X10.  The [Content-Disposition] header never names the file.  [main]
    reads the parameters of the header only when [mime.ParseMediaType]
    reports an error, and then the map it returns is nil; so two answers
    that differ in the header alone give the same name. *)
Theorem X10_content_disposition_unused
  (mime_ParseMediaType :
     string -> string * option (list (string * string)) * option error)
  (url_Parse_Path : string -> string) (source : string) (res res' : response) :
  (forall disp, let '(_, params, err) := mime_ParseMediaType disp in
                err <> None -> params = None) ->
  RequestURLPath res = RequestURLPath res' ->
  Main.inferName mime_ParseMediaType url_Parse_Path source res ""
  = Main.inferName mime_ParseMediaType url_Parse_Path source res' "".
Proof.
  intros Hm E.
  rewrite !inferName_no_header by exact Hm. now rewrite E.
Qed.

Lemma X10_content_disposition_unused_witness :
  Main.inferName (fun d => if String.eqb d "attachment; filename=x.bin"
                           then ("attachment"%string,
                                 Some [("filename", "x.bin")]%string, None)
                           else (""%string, None, Some (ErrFormat "mime: " d)))
    (fun s => s) "/dl/latest"
    {| StatusCode := 200; Status := "200 OK";
       ContentDisposition := "attachment; filename=x.bin";
       RequestURLPath := "/files/tool.tar.gz"; ResBody := Examples.gzipped |} ""
  = Main.inferName (fun d => if String.eqb d "attachment; filename=x.bin"
                           then ("attachment"%string,
                                 Some [("filename", "x.bin")]%string, None)
                           else (""%string, None, Some (ErrFormat "mime: " d)))
    (fun s => s) "/dl/latest"
    {| StatusCode := 200; Status := "200 OK";
       ContentDisposition := "";
       RequestURLPath := "/files/tool.tar.gz"; ResBody := Examples.gzipped |} "".
Proof.
  apply X10_content_disposition_unused.
  - intros disp. destruct (String.eqb disp _); cbn; [congruence | reflexivity].
  - reflexivity.
Defined.





(** * The file of a plain stream, by its inferred name *)

Module CleanFacts.
Import GoStrings Filepath PathFacts.

Import Cleaning.

Lemma no_sep_not_abs (name : string) :
  ContainsRune name Separator = false -> IsAbs name = false.
Proof.
  destruct name as [|c n]; [reflexivity|].
  unfold IsAbs. cbn [HasPrefix ContainsRune]. intros H.
  apply orb_false_iff in H as [Hc _]. unfold Separator in Hc.
  now rewrite Hc.
Qed.

Lemma step_push (r : bool) (out : list string) (e : string) :
  is_name e = true -> clean_step r out e = e :: out.
Proof.
  unfold is_name, clean_step. intros H.
  apply andb_true_iff in H as [H _]. apply negb_true_iff in H.
  apply orb_false_iff in H as [H1 H2]. now rewrite H1, H2.
Qed.

Lemma fold_names (r : bool) (es : list string) :
  Forall (fun x => is_name x = true) es ->
  forall out, fold_left (clean_step r) es out = rev es ++ out.
Proof.
  induction 1 as [|e es He _ IH]; intros out; cbn [fold_left rev];
    [reflexivity|].
  rewrite (step_push r out e He), IH, <- app_assoc. reflexivity.
Qed.

Lemma name_kept (e : string) : is_name e = true -> kept e.
Proof.
  unfold is_name. intros H. apply andb_true_iff in H as [H1 H2].
  apply negb_true_iff in H1. apply negb_true_iff in H2.
  apply orb_false_iff in H1 as [H1 _]. now split.
Qed.

Lemma step_kept (r : bool) (out : list string) (e : string) :
  Forall kept out -> ContainsRune e Separator = false ->
  Forall kept (clean_step r out e).
Proof.
  intros F He. unfold clean_step.
  destruct (String.eqb e "" || String.eqb e ".") eqn:E1; [exact F|].
  destruct (String.eqb e "..") eqn:E2.
  - destruct out as [|top out'].
    + destruct r; repeat constructor; assumption.
    + destruct (String.eqb top "..").
      * constructor; [now split | exact F].
      * now inversion F.
  - constructor; [now split | exact F].
Qed.

Lemma fold_kept (r : bool) (es : list string) :
  Forall (fun e => ContainsRune e Separator = false) es ->
  forall out, Forall kept out -> Forall kept (fold_left (clean_step r) es out).
Proof.
  induction 1 as [|e es He _ IH]; intros out F; cbn [fold_left]; [exact F|].
  apply IH. now apply step_kept.
Qed.

(** Cleaning a relative path first and resolving it below a directory
    afterwards gives what resolving it below the directory gives. *)
Lemma clean_compat (es : list string) :
  Forall (fun e => ContainsRune e Separator = false) es ->
  forall out,
    fold_left (clean_step true) (rev (fold_left (clean_step false) es [])) out
    = fold_left (clean_step true) es out.
Proof.
  induction es as [|e es IH] using rev_ind; intros F out; [reflexivity|].
  apply Forall_app in F as [F Fe]. inversion Fe as [|? ? He _]; subst.
  rewrite !fold_left_app. cbn [fold_left].
  rewrite <- (IH F out).
  pose proof (fold_kept false es F [] (Forall_nil _)) as K.
  set (S := fold_left (clean_step false) es []) in *. clearbody S.
  destruct (String.eqb e "" || String.eqb e ".") eqn:E1.
  { unfold clean_step. now rewrite E1. }
  destruct (String.eqb e "..") eqn:E2.
  - apply String.eqb_eq in E2. subst e.
    destruct S as [|top S'].
    + reflexivity.
    + destruct (String.eqb top "..") eqn:T.
      * assert (Hs : clean_step false (top :: S') ".." = ".."%string :: top :: S')
          by (unfold clean_step; cbn [String.eqb Ascii.eqb Bool.eqb orb];
              now rewrite T).
        rewrite Hs. cbn [rev]. now rewrite fold_left_app.
      * assert (Hs : clean_step false (top :: S') ".." = S')
          by (unfold clean_step; cbn [String.eqb Ascii.eqb Bool.eqb orb];
              now rewrite T).
        rewrite Hs. cbn [rev]. rewrite fold_left_app. cbn [fold_left].
        inversion K as [|? ? [Kt _] _]; subst.
        set (X := fold_left (clean_step true) (rev S') out).
        assert (Ht : clean_step true X top = top :: X)
          by (unfold clean_step; now rewrite Kt, T).
        rewrite Ht. unfold clean_step.
        cbn [String.eqb Ascii.eqb Bool.eqb orb]. now rewrite T.
  - assert (Hs : clean_step false S e = e :: S)
      by (unfold clean_step; now rewrite E1, E2).
    rewrite Hs. cbn [rev]. now rewrite fold_left_app.
Qed.

Lemma IsAbs_app (a b : string) :
  a <> ""%string -> IsAbs (a ++ b) = IsAbs a.
Proof. destruct a; [congruence | reflexivity]. Qed.

Lemma base_names (wd p : string) :
  Forall (fun x => is_name x = true) (base wd p).
Proof.
  unfold base. destruct (IsAbs p); [constructor|].
  apply fold_clean_step_names; [constructor | apply Split_no_sep].
Qed.

(** [Abs] in normal form. *)
Lemma Abs_elems (wd p : string) :
  IsAbs wd = true ->
  Abs wd p
  = ("/" ++ String.concat "/"
              (rev (fold_left (clean_step true) (Split p Separator) (base wd p))))%string.
Proof.
  intros Hwd. unfold Abs, base. destruct (IsAbs p) eqn:Hp.
  - now rewrite (Clean_rooted p Hp).
  - assert (Nw : wd <> ""%string) by (intros ->; discriminate).
    cbn [Join]. apply String.eqb_neq in Nw. rewrite Nw.
    change (String.concat "/" [wd; p]) with (wd ++ String Separator p)%string.
    rewrite Clean_rooted
      by (rewrite IsAbs_app; [exact Hwd | now apply String.eqb_neq]).
    unfold clean_elems. now rewrite Split_app_sep, fold_left_app.
Qed.

Lemma Abs_names (wd p : string) :
  Forall (fun x => is_name x = true)
    (rev (fold_left (clean_step true) (Split p Separator) (base wd p))).
Proof.
  apply Forall_rev, fold_clean_step_names;
    [apply base_names | apply Split_no_sep].
Qed.

Lemma kept_no_sep (l : list string) :
  Forall kept l -> Forall (fun e => ContainsRune e Separator = false) l.
Proof. intros F. eapply Forall_impl; [|exact F]. now intros ? [_ ?]. Qed.

Lemma names_no_sep (l : list string) :
  Forall (fun x => is_name x = true) l ->
  Forall (fun e => ContainsRune e Separator = false) l.
Proof. intros F. eapply Forall_impl; [|exact F]. apply is_name_no_sep. Qed.

(** The join of a directory and a name, made absolute: the elements of the
    directory made absolute, and the name. *)
Lemma Abs_Join_name (wd target name : string) :
  IsAbs wd = true -> is_name name = true ->
  IsAbs (Join [target; name]) = IsAbs target /\
  fold_left (clean_step true) (Split (Join [target; name]) Separator)
    (base wd target)
  = name :: fold_left (clean_step true) (Split target Separator) (base wd target).
Proof.
  intros Hwd Hn.
  pose proof (is_name_no_sep name Hn) as Hsep.
  pose proof (name_kept name Hn) as [Hk _].
  assert (Nn : name <> ""%string).
  { intros ->. discriminate. }
  assert (Cn : Clean name = name).
  { unfold Clean. apply String.eqb_neq in Nn. rewrite Nn.
    assert (A : IsAbs name = false)
      by (now apply no_sep_not_abs).
    rewrite A. unfold clean_elems. rewrite (Split_one name _ Hsep).
    cbn [fold_left]. rewrite (step_push false [] name Hn).
    cbn [rev app String.concat]. now rewrite Nn. }
  destruct (String.eqb target "") eqn:Et.
  - apply String.eqb_eq in Et. subst target.
    cbn [Join String.eqb]. apply String.eqb_neq in Nn. rewrite Nn.
    change (String.concat "/" [name]) with name. rewrite Cn.
    assert (A : IsAbs name = false)
      by (now apply no_sep_not_abs).
    split; [exact A|].
    rewrite (Split_one name _ Hsep). cbn [Split fold_left].
    rewrite (step_push true _ name Hn). reflexivity.
  - assert (J : Join [target; name] = Clean (target ++ String Separator name)).
    { cbn [Join]. now rewrite Et. }
    rewrite J. apply String.eqb_neq in Et.
    assert (Sp : Split (target ++ String Separator name) Separator
                 = Split target Separator ++ [name])
      by (now rewrite Split_app_sep, (Split_one name _ Hsep)).
    destruct (IsAbs target) eqn:Ha.
    + assert (Ha' : IsAbs (target ++ String Separator name) = true)
        by (now rewrite IsAbs_app).
      rewrite (Clean_rooted _ Ha'). split; [reflexivity|].
      unfold base. rewrite Ha. unfold clean_elems. rewrite Sp, fold_left_app.
      cbn [fold_left]. rewrite (step_push true _ name Hn).
      set (T := fold_left (clean_step true) (Split target Separator) []).
      assert (FT : Forall (fun x => is_name x = true) T)
        by (apply fold_clean_step_names; [constructor | apply Split_no_sep]).
      change (Split ("/" ++ String.concat "/" (rev (name :: T))) Separator)
        with (EmptyString :: Split (String.concat "/" (rev (name :: T))) Separator).
      assert (FR : Forall (fun x => is_name x = true) (rev (name :: T)))
        by (apply Forall_rev; now constructor).
      rewrite Split_concat;
        [| now apply names_no_sep
         | cbn [rev]; intros E; now apply app_eq_nil in E as [_ E]].
      cbn [fold_left]. unfold clean_step at 2. cbn [String.eqb orb].
      rewrite (fold_names true _ FR), rev_involutive, app_nil_r. reflexivity.
    + assert (Ha' : IsAbs (target ++ String Separator name) = false)
        by (now rewrite IsAbs_app).
      set (S := fold_left (clean_step false) (Split target Separator) []).
      assert (KS : Forall kept S)
        by (apply fold_kept; [apply Split_no_sep | constructor]).
      set (L := rev S ++ [name]).
      assert (KL : Forall kept L).
      { apply Forall_app. split; [now apply Forall_rev|].
        constructor; [now apply name_kept | constructor]. }
      assert (SL : Split (String.concat "/" L) Separator = L).
      { apply Split_concat; [now apply kept_no_sep|].
        unfold L. intros E. now apply app_eq_nil in E as [_ E]. }
      assert (CL : Clean (target ++ String Separator name) = String.concat "/" L).
      { unfold Clean. rewrite Ha'.
        assert (N : (target ++ String Separator name)%string <> ""%string)
          by (destruct target; [congruence | discriminate]).
        apply String.eqb_neq in N. rewrite N.
        unfold clean_elems. rewrite Sp, fold_left_app. cbn [fold_left].
        fold S. rewrite (step_push false S name Hn). cbn [rev]. fold L.
        destruct (String.eqb (String.concat "/" L) "") eqn:E; [|reflexivity].
        apply String.eqb_eq in E. rewrite E in SL. cbn in SL.
        exfalso. apply (f_equal (fun l => last l EmptyString)) in SL.
        unfold L in SL. rewrite last_last in SL. cbn in SL. congruence. }
      rewrite CL. split.
      * destruct (IsAbs (String.concat "/" L)) eqn:A; [|reflexivity]. exfalso.
        apply GoStringsFacts.HasPrefix_append in A as [t Ht].
        rewrite Ht in SL.
        change (Split ("/" ++ t) Separator)
          with (EmptyString :: Split t Separator) in SL.
        rewrite <- SL in KL. inversion KL as [|? ? [K0 _] _]. discriminate.
      * rewrite SL. unfold L.
        replace (rev S ++ [name]) with (rev (name :: S)) by reflexivity.
        replace (name :: S)
          with (fold_left (clean_step false) (Split target Separator ++ [name]) [])
          by (rewrite fold_left_app; cbn [fold_left]; fold S;
              now rewrite (step_push false S name Hn)).
        rewrite clean_compat.
        -- rewrite fold_left_app. cbn [fold_left].
           now rewrite (step_push true _ name Hn).
        -- apply Forall_app. split; [apply Split_no_sep | now repeat constructor].
Qed.

(** The parent of a path in normal form. *)
Lemma Dir_normal (D : list string) (name : string) :
  Forall (fun x => is_name x = true) D -> is_name name = true ->
  Dir ("/" ++ String.concat "/" (D ++ [name]))
  = ("/" ++ String.concat "/" D)%string.
Proof.
  intros FD Hn. unfold Dir.
  change (Split ("/" ++ String.concat "/" (D ++ [name])) Separator)
    with (EmptyString :: Split (String.concat "/" (D ++ [name])) Separator).
  rewrite Split_concat;
    [| apply names_no_sep, Forall_app; split; [exact FD | now repeat constructor]
     | intros E; now apply app_eq_nil in E as [_ E]].
  change (EmptyString :: D ++ [name]) with ((EmptyString :: D) ++ [name]).
  rewrite removelast_last.
  assert (E : (String.concat "/" (EmptyString :: D) ++ "/")%string
              = ("/" ++ String.concat "/" D ++ "/")%string \/ D = []).
  { destruct D; [now right | left; reflexivity]. }
  destruct E as [E| ->]; [|reflexivity].
  rewrite E.
  rewrite Clean_rooted by reflexivity.
  f_equal. f_equal. unfold clean_elems.
  change (Split ("/" ++ String.concat "/" D ++ "/") Separator)
    with (EmptyString :: Split (String.concat "/" D ++ String Separator "") Separator).
  rewrite Split_app_sep. cbn [Split fold_left].
  unfold clean_step at 2. cbn [String.eqb orb].
  destruct D as [|d D']; [reflexivity|].
  rewrite Split_concat; [| now apply names_no_sep | discriminate].
  rewrite fold_left_app. cbn [fold_left].
  unfold clean_step at 1. cbn [String.eqb orb].
  change (rev (fold_left (clean_step true) (d :: D') []) = d :: D').
  now rewrite (fold_names true _ FD), app_nil_r, rev_involutive.
Qed.

End CleanFacts.

(** X13.  A proper name lands in the destination.  When the destination is
    a directory and the inferred name is a name (not empty, not [.] or
    [..], no separator), the file [targetFile] opens is the one of that
    name directly in the destination: the elements of its path are those of
    the destination made absolute, then the name; the directory it makes
    first is the destination itself; and it makes no other call. *)
Theorem X13_targetFile_proper_name (cfg : config) (st : state) :
  stdout cfg = false -> targetIsDir cfg = true ->
  Filepath.IsAbs (wd cfg) = true ->
  Filepath.is_name (targetName st) = true ->
  let dest := Filepath.Abs (wd cfg) (target cfg) in
  let path := Filepath.Abs (wd cfg) (Filepath.Join [target cfg; targetName st]) in
  OS.path_elems path = OS.path_elems dest ++ [targetName st] /\
  Filepath.Dir path = dest /\
  exists cs,
    calls (snd (Fetch.targetFile cfg st)) = calls st ++ cs /\
    (cs = [CMkdirAll dest (octal [7; 7; 7])] \/
     cs = [CMkdirAll dest (octal [7; 7; 7]); COpenFile path (octal [6; 6; 6])]).
Proof.
  intros Ho Hd Hwd Hn dest path.
  destruct (CleanFacts.Abs_Join_name (wd cfg) (target cfg) (targetName st) Hwd Hn)
    as [HA HF].
  pose proof (CleanFacts.Abs_names (wd cfg) (target cfg)) as FD.
  assert (Ed : dest = ("/" ++ String.concat "/"
                         (rev (fold_left (Filepath.clean_step true)
                                 (GoStrings.Split (target cfg) Filepath.Separator)
                                 (Cleaning.base (wd cfg) (target cfg)))))%string)
    by (apply CleanFacts.Abs_elems; exact Hwd).
  assert (Ep : path = ("/" ++ String.concat "/"
                         (rev (fold_left (Filepath.clean_step true)
                                 (GoStrings.Split (target cfg) Filepath.Separator)
                                 (Cleaning.base (wd cfg) (target cfg)))
                          ++ [targetName st]))%string).
  { unfold path. rewrite (CleanFacts.Abs_elems _ _ Hwd).
    unfold Cleaning.base at 1. rewrite HA. fold (Cleaning.base (wd cfg) (target cfg)).
    now rewrite HF. }
  set (D := rev (fold_left (Filepath.clean_step true)
                   (GoStrings.Split (target cfg) Filepath.Separator)
                   (Cleaning.base (wd cfg) (target cfg)))) in *.
  assert (HDir : Filepath.Dir path = dest)
    by (rewrite Ep, Ed; now apply CleanFacts.Dir_normal).
  split; [|split; [exact HDir|]].
  - rewrite Ep, Ed. rewrite !PathFacts.path_elems_rooted; [reflexivity | exact FD |].
    apply Forall_app. split; [exact FD | now repeat constructor].
  - unfold Fetch.targetFile, bind, ret, fail, get, os_MkdirAll, os_OpenFile, os_call.
    rewrite Ho, Hd. unfold Filepath.FromSlash.
    rewrite (PathFacts.is_name_no_sep _ Hn). fold path. rewrite HDir.
    cbn [fs add_call].
    destruct (OS.MkdirAll _ _ _ _ _) as [e|fs1].
    + eexists. split; [reflexivity | now left].
    + cbn [fs set_fs add_call].
      destruct (OS.OpenFile _ _ _ _ _) as [e|[fs2 h]];
        (eexists; split; [cbn [snd calls set_fs add_call];
                          rewrite <- app_assoc; reflexivity | now right]).
Qed.

Lemma X13_targetFile_proper_name_witness :
  Filepath.Dir (Filepath.Abs "/home/u" (Filepath.Join ["dl/../out"; "a.bin"]%string))
  = Filepath.Abs "/home/u" "dl/../out".
Proof.
  exact (proj1 (proj2
    (X13_targetFile_proper_name
       {| stdout := false; targetIsDir := true; target := "dl/../out";
          wd := "/home/u"; umask := octal [0; 2; 2] |}
       (Examples.fresh "a.bin") eq_refl eq_refl eq_refl eq_refl))).
Defined.

(** X14.  The revision in [src/main.go] keeps the plain file inside the
    destination.  When the destination is a directory, [targetFile] either
    ends the run with the illegal-file-path error before any call, the state
    as it was, or every path it gives to a call of package [os] is lexically
    at or below the destination: the file's path is the destination's
    elements followed by at least one name, and the directory made first is
    the destination's elements followed by all but the last of them. *)
Theorem X14_Earlier_targetFile_inside (cfg : config) (st : state) :
  stdout cfg = false -> targetIsDir cfg = true ->
  Filepath.IsAbs (wd cfg) = true ->
  let dest := Earlier.abs_target cfg in
  let path := Filepath.Join [dest; targetName st] in
  (GoStrings.HasPrefix path (dest ++ "/") = false /\
   Earlier.targetFile cfg st = (Fatal (IllegalFilePath (targetName st)), st))
  \/
  (exists elems,
     elems <> [] /\ Forall (fun x => Filepath.is_name x = true) elems /\
     OS.path_elems path = OS.path_elems dest ++ elems /\
     OS.path_elems (Filepath.Dir path) = OS.path_elems dest ++ removelast elems /\
     exists cs,
       calls (snd (Earlier.targetFile cfg st)) = calls st ++ cs /\
       (cs = [CMkdirAll (Filepath.Dir path) (octal [7; 5; 5])] \/
        cs = [CMkdirAll (Filepath.Dir path) (octal [7; 5; 5]);
              COpenFile path (octal [6; 6; 6])])).
Proof.
  intros Ho Hd Hwd dest path. subst path dest.
  unfold Earlier.targetFile, Earlier.abs_target, bind, ret, fail, get,
    os_MkdirAll, os_OpenFile, os_call.
  rewrite Ho, Hd.
  destruct (ContainmentFacts.Abs_rooted (wd cfg) (target cfg) Hwd)
    as (q & Hq & Eq).
  rewrite Eq. set (C := Filepath.Clean q).
  set (path := Filepath.Join [C; targetName st]).
  pose proof (PathFacts.clean_elems_names q) as FD.
  assert (EC : C = ("/" ++ String.concat "/"
      (Filepath.clean_elems true (GoStrings.Split q Filepath.Separator)))%string)
    by (now apply PathFacts.Clean_rooted).
  set (D := Filepath.clean_elems true (GoStrings.Split q Filepath.Separator)) in *.
  assert (PC : OS.path_elems C = D)
    by (rewrite EC; now apply PathFacts.path_elems_rooted).
  destruct (GoStrings.HasPrefix path (C ++ "/")) eqn:H.
  - right. cbn [negb].
    assert (Nd : String.eqb C "" = false) by (rewrite EC; reflexivity).
    assert (Jp : path = Filepath.Clean (String.concat "/" [C; targetName st]))
      by (unfold path; cbn [Filepath.Join]; now rewrite Nd).
    assert (Ap : Filepath.IsAbs (String.concat "/" [C; targetName st]) = true)
      by (rewrite EC; reflexivity).
    rewrite Jp in H.
    destruct (PathFacts.cleaned_prefix _ q Ap Hq H)
      as (rest & elems & _ & _ & H3 & H4 & H5).
    fold C in H3. rewrite PC in H3.
    assert (Epn : path = ("/" ++ String.concat "/" (D ++ elems))%string).
    { rewrite Jp, (PathFacts.Clean_rooted _ Ap). f_equal. f_equal.
      rewrite <- H3, (PathFacts.Clean_rooted _ Ap).
      symmetry. apply PathFacts.path_elems_rooted, PathFacts.clean_elems_names. }
    rewrite <- Jp in H3.
    exists elems. rewrite PC.
    split; [exact H4|]. split; [exact H5|]. split; [exact H3|].
    split.
    + rewrite Epn.
      assert (Fr : Forall (fun x => Filepath.is_name x = true) (removelast elems) /\
                   Filepath.is_name (last elems EmptyString) = true).
      { rewrite (app_removelast_last EmptyString H4) in H5.
        apply Forall_app in H5 as [F1 F2]. split; [exact F1 | now inversion F2]. }
      destruct Fr as [F1 F2].
      rewrite (app_removelast_last EmptyString H4) at 1.
      rewrite app_assoc.
      rewrite CleanFacts.Dir_normal;
        [| apply Forall_app; split; assumption | exact F2].
      apply PathFacts.path_elems_rooted.
      apply Forall_app; split; assumption.
    + cbn [fs add_call].
      destruct (OS.MkdirAll _ _ _ _ _) as [e|fs1].
      * eexists. split; [reflexivity | now left].
      * cbn [fs set_fs add_call].
        destruct (OS.OpenFile _ _ _ _ _) as [e|[fs2 h]];
          (eexists; split; [cbn [snd calls set_fs add_call];
                            rewrite <- app_assoc; reflexivity | now right]).
  - left. split; reflexivity.
Qed.

Lemma X14_Earlier_targetFile_inside_witness :
  Earlier.targetFile Examples.to_new_dir (Examples.fresh "..")
  = (Fatal (IllegalFilePath ".."), Examples.fresh "..").
Proof.
  destruct (X14_Earlier_targetFile_inside Examples.to_new_dir
              (Examples.fresh "..") eq_refl eq_refl eq_refl)
    as [[_ E]|(elems & _ & _ & H & _)].
  - exact E.
  - exfalso. vm_compute in H.
    destruct elems; discriminate H.
Defined.

(** * The loop of [unarchive] in [src/main.go] *)

Module EarlierLoopFacts.
Section Program.
Variable cfg : config.

Lemma unarchiveNext_end (mk : archive -> reader) (fin : error) :
  mk = TarReader \/ mk = ZipReader ->
  Fetch.unarchiveNext (mk {| entries := []; final := fin |})
  = (Ok (inl fin), mk {| entries := []; final := fin |}).
Proof. intros [-> | ->]; reflexivity. Qed.

(** With more fuel than entries, the amount of fuel does not matter. *)
Lemma fuel_enough (mk : archive -> reader) (fin : error) :
  mk = TarReader \/ mk = ZipReader ->
  forall (es : list entry) (fuel fuel' : nat) (st : state),
    List.length es < fuel -> List.length es < fuel' ->
    EarlierLoop.unarchive cfg fuel (mk {| entries := es; final := fin |}) st
    = EarlierLoop.unarchive cfg fuel' (mk {| entries := es; final := fin |}) st.
Proof.
  intros Hmk es. induction es as [|e es IH]; intros fuel fuel' st H H'.
  - destruct fuel as [|fuel]; [lia|]. destruct fuel' as [|fuel']; [lia|].
    cbn [EarlierLoop.unarchive]. now rewrite (unarchiveNext_end mk fin Hmk).
  - destruct fuel as [|fuel]; [cbn in H; lia|].
    destruct fuel' as [|fuel']; [cbn in H'; lia|].
    cbn [EarlierLoop.unarchive].
    rewrite (ExtractFacts.unarchiveNext_entry mk e es fin Hmk). unfold bind.
    destruct (Earlier.unarchive_entry cfg (Name e) (Info e) (Body e) st)
      as [[[]|err|msg|] st1]; try reflexivity.
    apply IH; cbn in H, H'; lia.
Qed.

Lemma unsupported_modes (e : entry) :
  EarlierLoop.supported e = false ->
  FileMode.IsDir (Mode (Info e)) = false /\
  FileMode.IsRegular (Mode (Info e)) = false /\
  Z.land (Mode (Info e)) FileMode.ModeSymlink = 0%Z.
Proof.
  unfold EarlierLoop.supported. intros H.
  apply orb_false_iff in H as [H H3]. apply orb_false_iff in H as [H1 H2].
  apply negb_false_iff, Z.eqb_eq in H3. now repeat split.
Qed.

End Program.
End EarlierLoopFacts.

(** X15.  In [src/main.go] the [switch] of [unarchive] has no [default]
    case: an entry that is neither a directory, a regular file nor a link,
    and whose path passes the containment check, is passed over without a
    trace.  A run over an archive is the run over the archive without these
    entries: same result, same file tree, same calls. *)
Theorem X15_Earlier_unsupported_invisible (cfg : config)
  (mk : archive -> reader) (es : list entry) (fin : error) (fuel : nat)
  (st : state) :
  mk = TarReader \/ mk = ZipReader ->
  (forall e, In e es -> EarlierLoop.supported e = false ->
             GoStrings.HasPrefix
               (Filepath.Join [Earlier.abs_target cfg; Name e])
               (Earlier.abs_target cfg ++ "/") = true) ->
  List.length es < fuel ->
  EarlierLoop.unarchive cfg fuel (mk {| entries := es; final := fin |}) st
  = EarlierLoop.unarchive cfg fuel
      (mk {| entries := filter EarlierLoop.supported es; final := fin |}) st.
Proof.
  intros Hmk. revert fuel st.
  induction es as [|e es IH]; intros fuel st Hin Hf; [reflexivity|].
  destruct fuel as [|fuel]; [cbn in Hf; lia|].
  assert (Hf' : List.length es < fuel) by (cbn in Hf; lia).
  assert (Hin' : forall x, In x es -> EarlierLoop.supported x = false ->
             GoStrings.HasPrefix
               (Filepath.Join [Earlier.abs_target cfg; Name x])
               (Earlier.abs_target cfg ++ "/") = true)
    by (intros x Hx; apply Hin; now right).
  cbn [filter]. destruct (EarlierLoop.supported e) eqn:Hs.
  - cbn [EarlierLoop.unarchive].
    rewrite !(ExtractFacts.unarchiveNext_entry mk e _ fin Hmk). unfold bind.
    destruct (Earlier.unarchive_entry cfg (Name e) (Info e) (Body e) st)
      as [[[]|err|msg|] st1]; try reflexivity.
    now apply IH.
  - pose proof (filter_length_le EarlierLoop.supported es) as Hl.
    rewrite (EarlierLoopFacts.fuel_enough cfg mk fin Hmk
               (filter EarlierLoop.supported es) (Datatypes.S fuel) fuel st)
      by lia.
    cbn [EarlierLoop.unarchive].
    rewrite (ExtractFacts.unarchiveNext_entry mk e es fin Hmk). unfold bind.
    destruct (EarlierLoopFacts.unsupported_modes e Hs) as (D & R & L).
    rewrite (Earlier_unsupported_skipped cfg (Name e) (Info e) (Body e) st
               (Hin e (or_introl eq_refl) Hs) D R L).
    now apply IH.
Qed.

Lemma X15_Earlier_unsupported_invisible_witness :
  EarlierLoop.unarchive Examples.to_out 3
    (TarReader
       {| entries := [Examples.an_entry "pipe"
                        (Z.lor FileMode.ModeNamedPipe (octal [6; 4; 4])) 0 "";
                      Examples.an_entry "a.txt" (octal [6; 4; 4]) 2 "hi"];
          final := EOF |}) (Examples.with_out "")
  = EarlierLoop.unarchive Examples.to_out 3
      (TarReader
         {| entries := [Examples.an_entry "a.txt" (octal [6; 4; 4]) 2 "hi"];
            final := EOF |}) (Examples.with_out "").
Proof.
  apply (X15_Earlier_unsupported_invisible Examples.to_out TarReader
           [Examples.an_entry "pipe"
              (Z.lor FileMode.ModeNamedPipe (octal [6; 4; 4])) 0 "";
            Examples.an_entry "a.txt" (octal [6; 4; 4]) 2 "hi"]
           EOF 3 (Examples.with_out "")).
  - now left.
  - intros e [<- | [<- | []]] _; vm_compute; reflexivity.
  - cbn. lia.
Defined.

(** * A regular file, read back by its path *)

Module StampFacts.
Import OS OSFacts.

Section Process.
Variable wd : string.
Variable umask : Z.

Lemma Write_resolve (fs : fsys) (path : string) (h : ppath) (m : Z)
  (c data : list byte) (t : option Z) :
  lookup fs h = Some (NFile m c t) ->
  resolve wd (Write fs h data) path true = resolve wd fs path true /\
  lookup (Write fs h data) h = Some (NFile m (c ++ data) t).
Proof.
  intros L. unfold Write. rewrite L. split.
  - symmetry. apply TreeFacts.resolve_same_kind.
    now apply TreeFacts.rebind_file with (m := m) (c := c) (t := t).
  - apply lookup_insert_eq.
Qed.

(** [Chtimes] on a path that names a regular file succeeds, and [Stat]
    then finds the file with the new time and nothing else changed. *)
Lemma Chtimes_Stat (fs : fsys) (path : string) (h : ppath) (m : Z)
  (c : list byte) (t : option Z) (time : Z) :
  resolve wd fs path true = inr h ->
  lookup fs h = Some (NFile m c t) ->
  exists fs', Chtimes wd fs path time = inr fs' /\
              Stat wd fs' path = inr (NFile m c (Some time)).
Proof.
  intros R L. unfold Chtimes. rewrite R, L. eexists. split; [reflexivity|].
  unfold Stat.
  rewrite <- (TreeFacts.resolve_same_kind wd fs _ path true
                (TreeFacts.rebind_file fs h m m c c t (Some time) L)).
  now rewrite R, lookup_insert_eq.
Qed.

End Process.

Lemma regular_not_dir (mode : Z) :
  FileMode.IsRegular mode = true -> FileMode.IsDir mode = false.
Proof.
  unfold FileMode.IsRegular, FileMode.IsDir. intros H.
  apply Z.eqb_eq in H. apply negb_false_iff, Z.eqb_eq.
  replace FileMode.ModeDir
    with (Z.land FileMode.ModeType FileMode.ModeDir) by reflexivity.
  now rewrite Z.land_assoc, H.
Qed.

End StampFacts.

(** X16.  A regular-file entry read back.  After an entry with a regular
    mode has been extracted without error, [Stat] of the entry's path finds
    a regular file holding exactly the bytes of the entry, whether the file
    was there before or not; its modification time is the one of the header
    when the header has one; and when nothing was at the path before, its
    permission bits are those of the header less the umask. *)
Theorem X16_regular_entry_round_trip (cfg : config) (dir name : string)
  (fi : FileInfo) (body : stream) (st st' : state) :
  FileMode.IsRegular (Mode fi) = true ->
  Fetch.unarchive_entry cfg dir name fi body st = (Ok tt, st') ->
  let path := Fetch.entry_path dir name in
  exists m t,
    OS.Stat (wd cfg) (fs st') path = inr (OS.NFile m (data body) t) /\
    (forall time, ModTime fi = Some time -> t = Some time) /\
    (OS.Stat (wd cfg) (fs st) path = inl OS.ENOENT ->
     m = OS.created_mode (umask cfg) (Mode fi)).
Proof.
  intros R Hrun path.
  pose proof (StampFacts.regular_not_dir _ R) as D.
  destruct (GoStrings.HasPrefix (Fetch.entry_path dir name) dir) eqn:H.
  2:{ rewrite (ExtractFacts.entry_illegal cfg dir name fi body st H) in Hrun.
      discriminate. }
  revert Hrun. rewrite ExtractFacts.entry_regular by assumption.
  unfold os_OpenFile, io_Copy, Close. ExtractFacts.run. cbn [fs add_call].
  fold path.
  destruct (OS.OpenFile (wd cfg) (umask cfg) (fs st) path (Mode fi))
    as [e|[fs1 h]] eqn:O; [discriminate|].
  destruct (TreeFacts.OpenFile_Stat _ _ _ _ _ _ _ O) as (Rs & m & t & L & Hm).
  cbn [fs set_fs snd].
  destruct (ending body) as [e|]; [discriminate|].
  destruct (negb _); [discriminate|].
  destruct (StampFacts.Write_resolve (wd cfg) fs1 path h m [] (data body) t L)
    as [Rw Lw]. cbn [app] in Lw. rewrite Rs in Rw.
  assert (Hnew : OS.Stat (wd cfg) (fs st) path = inl OS.ENOENT ->
                 m = OS.created_mode (umask cfg) (Mode fi)).
  { intros Hs. apply Hm. revert Hs O. unfold OS.Stat, OS.OpenFile.
    destruct (OS.resolve (wd cfg) (fs st) path true) as [e|p];
      [intros _ E; discriminate E|].
    destruct (OS.lookup (fs st) p) as [[| |]|] eqn:Lp; try discriminate.
    intros _ E. injection E as _ <-. exact Lp. }
  destruct (ModTime fi) as [time|].
  - unfold os_Chtimes, os_call. cbn [fs add_call set_fs].
    destruct (StampFacts.Chtimes_Stat (wd cfg) _ path h m (data body) t time Rw Lw)
      as (fs3 & C & S3).
    rewrite C. intros E. injection E as <-. cbn [fs set_fs].
    exists m, (Some time). split; [exact S3|]. split; [|exact Hnew].
    intros ? E. now injection E as <-.
  - intros E. injection E as <-. cbn [fs set_fs].
    exists m, t. split; [|split; [discriminate | exact Hnew]].
    unfold OS.Stat. now rewrite Rw, Lw.
Qed.

Lemma X16_regular_entry_round_trip_witness :
  exists m t,
    OS.Stat "/home"
      (fs (snd (Fetch.unarchive_entry Examples.to_out "/out/" "a.txt"
                  {| Mode := octal [6; 4; 4]; Size := 2; ModTime := Some 1700000000%Z |}
                  (Examples.content "hi") (Examples.with_out ""))))
      (Fetch.entry_path "/out/" "a.txt")
    = inr (OS.NFile m (Bytes.of_string "hi") t) /\
    t = Some 1700000000%Z.
Proof.
  destruct (X16_regular_entry_round_trip Examples.to_out "/out/" "a.txt"
              {| Mode := octal [6; 4; 4]; Size := 2; ModTime := Some 1700000000%Z |}
              (Examples.content "hi") (Examples.with_out "")
              (snd (Fetch.unarchive_entry Examples.to_out "/out/" "a.txt"
                      {| Mode := octal [6; 4; 4]; Size := 2;
                         ModTime := Some 1700000000%Z |}
                      (Examples.content "hi") (Examples.with_out "")))
              eq_refl)
    as (m & t & S & T & _).
  - vm_compute. reflexivity.
  - exists m, t. split; [exact S | now apply T].
Defined.
